(** * Pulse website: release catalog, filter engine and download wizard

    A shallow embedding of the catalog logic of the three page components

    - [src/pages/Releases.tsx]   (the releases browser),
    - the dev-builds browser     (same shape, other endpoint),
    - [src/components/LandingPage/DownloadModal.tsx] (the download wizard),

    and the properties of the version comparator, the filter engine, the
    fetch cycle and the wizard's state machine.

    Conventions of the embedding.
    - A JavaScript string is a [string]; the characters that matter to the
      code (digits, ['.'], sign, white space, ASCII letters) are ASCII.
    - The numbers the code computes with are integers (the results of
      [parseInt] and the [build_id] keys); they are embedded in [Z].  [NaN]
      is the [None] of an [option Z].  [parseInt] is exact on runs of up
      to fifteen digits; the comparator only compares the numbers it
      parsed, so its order properties do not depend on their values.
    - React state is a record; an event handler is a function from state to
      state. *)

From Stdlib Require Import ZArith List String Ascii Bool Lia.
From Stdlib Require Import Permutation Sorted.
From Stdlib Require Import DecimalString DecimalPos DecimalZ.
Import ListNotations.

Set Warnings "-register-all".

Open Scope string_scope.
Open Scope Z_scope.

(** ** JavaScript string primitives used by the pages *)

Module JsString.

(** [s.split(sep)] for a one-character separator: never empty, the empty
    string splits to [[""]]. *)
Fixpoint split (sep : ascii) (s : string) : list string :=
  match s with
  | EmptyString => [EmptyString]
  | String c rest =>
      if Ascii.eqb c sep then EmptyString :: split sep rest
      else match split sep rest with
           | [] => [String c EmptyString]
           | piece :: pieces => String c piece :: pieces
           end
  end.

Definition isDigit (c : ascii) : bool :=
  let n := nat_of_ascii c in (48 <=? n)%nat && (n <=? 57)%nat.

Definition digitValue (c : ascii) : Z := Z.of_nat (nat_of_ascii c) - 48.

(** White space skipped by [parseInt]: TAB, LF, VT, FF, CR and space. *)
Definition isWhiteSpace (c : ascii) : bool :=
  let n := nat_of_ascii c in
  ((9 <=? n)%nat && (n <=? 13)%nat) || (n =? 32)%nat.

Fixpoint skipWhiteSpace (s : string) : string :=
  match s with
  | String c rest => if isWhiteSpace c then skipWhiteSpace rest else s
  | EmptyString => s
  end.

(** The longest prefix of decimal digits, read as a number; [acc] is the
    value of the digits read so far, [None] while there is none. *)
Fixpoint parseDigits (acc : option Z) (s : string) : option Z :=
  match s with
  | String c rest =>
      if isDigit c
      then parseDigits
             (Some (10 * match acc with Some n => n | None => 0 end
                    + digitValue c)) rest
      else acc
  | EmptyString => acc
  end.

Definition hexValue (c : ascii) : option Z :=
  let n := nat_of_ascii c in
  if isDigit c then Some (Z.of_nat n - 48)
  else if (65 <=? n)%nat && (n <=? 70)%nat then Some (Z.of_nat n - 55)
  else if (97 <=? n)%nat && (n <=? 102)%nat then Some (Z.of_nat n - 87)
  else None.

Fixpoint parseHexDigits (acc : option Z) (s : string) : option Z :=
  match s with
  | String c rest =>
      match hexValue c with
      | Some d =>
          parseHexDigits
            (Some (16 * match acc with Some n => n | None => 0 end + d)) rest
      | None => acc
      end
  | EmptyString => acc
  end.

(** The digits of [parseInt] without a radix: a [0x] or [0X] prefix
    selects base 16, anything else is read in base 10. *)
Definition parseDigitsAnyRadix (s : string) : option Z :=
  match s with
  | String "0" (String "x" hex) => parseHexDigits None hex
  | String "0" (String "X" hex) => parseHexDigits None hex
  | _ => parseDigits None s
  end.

(** What [parseInt] does before the digits: leading white space is
    skipped and one sign is read. *)
Definition parseSigned (digits : string -> option Z) (s : string)
  : option Z :=
  match skipWhiteSpace s with
  | String "-" rest => option_map Z.opp (digits rest)
  | String "+" rest => digits rest
  | trimmed => digits trimmed
  end.

(** [parseInt(s, 10)]; [None] is [NaN]. *)
Definition parseInt10 (s : string) : option Z :=
  parseSigned (parseDigits None) s.

(** [parseInt(s)], no radix given. *)
Definition parseInt (s : string) : option Z :=
  parseSigned parseDigitsAnyRadix s.

(** [x || 0] on a number: [NaN] and zero both give [0]. *)
Definition orZero (x : option Z) : Z :=
  match x with Some n => n | None => 0 end.

(** ASCII fragment of [String.prototype.toLowerCase]. *)
Definition lowerChar (c : ascii) : ascii :=
  let n := nat_of_ascii c in
  if (65 <=? n)%nat && (n <=? 90)%nat then ascii_of_nat (n + 32) else c.

Fixpoint toLowerCase (s : string) : string :=
  match s with
  | EmptyString => EmptyString
  | String c rest => String (lowerChar c) (toLowerCase rest)
  end.

(** Truthiness of a string: only the empty string is falsy. *)
Definition truthy (s : string) : bool :=
  match s with EmptyString => false | _ => true end.

(** The order of [Array.prototype.sort()] without a comparator: strings
    by their code units. *)
Definition compareCodeUnits (a b : string) : Z :=
  match String.compare a b with Lt => -1 | Eq => 0 | Gt => 1 end.

End JsString.

Import JsString.

(** ** VersionComparator ([compareVersions], both browsers) *)

(** [v.split('.').map((p) => parseInt(p, 10) || 0)] *)
Definition versionParts (v : string) : list Z :=
  map (fun p => orZero (parseInt10 p)) (split "." v).

(** The [for] loop of [compareVersions]: [steps] iterations are left and
    [i] is the loop index; [parts[i] || 0] is [nth i parts 0]. *)
Fixpoint compareFrom (steps i : nat) (parts1 parts2 : list Z) : Z :=
  match steps with
  | O => 0
  | S steps' =>
      let num1 := nth i parts1 0 in
      let num2 := nth i parts2 0 in
      if num1 >? num2 then 1
      else if num1 <? num2 then -1
      else compareFrom steps' (S i) parts1 parts2
  end.

Definition compareVersions (v1 v2 : string) : Z :=
  let parts1 := versionParts v1 in
  let parts2 := versionParts v2 in
  let maxLength := Nat.max (List.length parts1) (List.length parts2) in
  compareFrom maxLength 0 parts1 parts2.

(** A run of decimal digits, possibly empty. *)
Fixpoint allDigits (s : string) : bool :=
  match s with
  | EmptyString => true
  | String c rest => isDigit c && allDigits rest
  end.

(** A segment that is a number: a non-empty run of at most fifteen
    decimal digits.  Such a number is below [2^53], so that [parseInt]
    returns it exactly. *)
Definition isNumber (s : string) : bool :=
  truthy s && allDigits s && (String.length s <=? 15)%nat.

(** A version in the form the data model describes: segments separated by
    ['.'], each a number. *)
Definition dotNumeric (v : string) : bool := forallb isNumber (split "." v).

(** ** Array primitives used by the pages *)

Module JsArray.

Section Sort.
Context {A : Type}.
Variable compareFn : A -> A -> Z.

(** [x] goes in front of the first element it does not have to follow. *)
Fixpoint insertSorted (x : A) (sorted : list A) : list A :=
  match sorted with
  | [] => [x]
  | y :: sorted' =>
      if compareFn x y <=? 0 then x :: sorted
      else y :: insertSorted x sorted'
  end.

(** [l.sort(compareFn)].  The sort of the language is stable; for a
    comparator that is a consistent ordering its result is the stably
    sorted arrangement of [l], which insertion from the right
    computes. *)
Fixpoint sort (l : list A) : list A :=
  match l with
  | [] => []
  | x :: l' => insertSorted x (sort l')
  end.
End Sort.

(** [Array.from(new Set(l))]: first occurrences, in order. *)
Fixpoint distinct (l : list string) : list string :=
  match l with
  | [] => []
  | x :: l' => x :: filter (fun y => negb (String.eqb x y)) (distinct l')
  end.

End JsArray.

Import JsArray.

(** ** FilterEngine: the derived views of the two catalog browsers

    [Releases.tsx] and the dev-builds page carry the same three memoized
    views and the same platform handler, over [Release] and [DevBuild]; the
    section is their common text, over the fields both interfaces have. *)

Module FilterEngine.
Section Views.
Variable Artifact : Type.
Variable version platform : Artifact -> string.
Variable build_id : Artifact -> Z.

Definition availableVersions (items : list Artifact) : list string :=
  let uniqueVersions := distinct (map version items) in
  sort (fun a b => compareVersions b a) uniqueVersions.

Definition availablePlatforms (items : list Artifact) : list string :=
  let uniquePlatforms := distinct (map platform items) in
  sort compareCodeUnits uniquePlatforms.

(** The comparator handed to [result.sort]. *)
Definition byVersionThenBuild (a b : Artifact) : Z :=
  let versionDiff := compareVersions (version b) (version a) in
  if negb (versionDiff =? 0) then versionDiff
  else build_id b - build_id a.

Definition processed (items : list Artifact)
           (selectedVersion selectedPlatform : string) : list Artifact :=
  let result := items in
  let result :=
    if truthy selectedVersion
    then filter (fun r => String.eqb (version r) selectedVersion) result
    else result in
  let result :=
    if truthy selectedPlatform
    then filter (fun r => String.eqb (platform r) selectedPlatform) result
    else result in
  sort byVersionThenBuild result.

(** The reading of the two views that the properties below use: an
    artifact passes when each filter that is set matches exactly; *)
Definition passes (selectedVersion selectedPlatform : string)
           (r : Artifact) : bool :=
  (negb (truthy selectedVersion)
   || String.eqb (version r) selectedVersion)
  && (negb (truthy selectedPlatform)
      || String.eqb (platform r) selectedPlatform).

(** and [a] may stand before [b] when it has the higher version, or
    the same version and a build id that is not lower. *)
Definition descending (a b : Artifact) : Prop :=
  compareVersions (version a) (version b) = 1
  \/ (compareVersions (version a) (version b) = 0
      /\ build_id b <= build_id a).
End Views.

(** [setSelectedPlatform(prev => prev === plat ? '' : plat)] *)
Definition handlePlatformFilter (plat prev : string) : string :=
  if String.eqb prev plat then "" else plat.

End FilterEngine.

Module Releases.

Record Release := {
  version : string;
  platform : string;
  build_id : Z;
  changelog : string;
  filename : string;
  file_size : Z;
  upload_timestamp : string
}.

Definition availableVersions := FilterEngine.availableVersions Release version.
Definition availablePlatforms :=
  FilterEngine.availablePlatforms Release platform.
Definition processedReleases :=
  FilterEngine.processed Release version platform build_id.
Definition handlePlatformFilter := FilterEngine.handlePlatformFilter.

End Releases.

Module DevBuilds.

Record DevBuild := {
  version : string;
  build_id : Z;
  commit_hash : string;
  author : string;
  commit_message : string;
  platform : string;
  upload_timestamp : string
}.

Definition availableVersions :=
  FilterEngine.availableVersions DevBuild version.
Definition availablePlatforms :=
  FilterEngine.availablePlatforms DevBuild platform.
Definition processedBuilds :=
  FilterEngine.processed DevBuild version platform build_id.
Definition handlePlatformFilter := FilterEngine.handlePlatformFilter.

End DevBuilds.

(** ** CatalogStore: the response envelope and the fetch cycle *)

Module Json.

(** What [response.json()] can give.  A number is kept as an integer: the
    pages only ask of one whether it is zero. *)
Inductive json :=
| JNull
| JBool (b : bool)
| JNumber (n : Z)
| JString (s : string)
| JArray (items : list json)
| JObject (fields : list (string * json)).

Fixpoint lookup (name : string) (fields : list (string * json))
  : option json :=
  match fields with
  | [] => None
  | (key, value) :: fields' =>
      if String.eqb key name then Some value else lookup name fields'
  end.

(** Truthiness of a value. *)
Definition truthyValue (v : json) : bool :=
  match v with
  | JNull => false
  | JBool b => b
  | JNumber n => negb (n =? 0)
  | JString s => JsString.truthy s
  | JArray _ | JObject _ => true
  end.

(** What a [try] block can throw: an [Error] with its message, or any
    other value. *)
Inductive thrown :=
| ErrorObject (message : string)
| OtherThrown.

(** A computation that returns or throws, and its sequencing: what
    follows a throwing step is skipped. *)
Definition attempt (A : Type) : Type := (thrown + A)%type.

Definition andThen {A B : Type} (x : attempt A) (f : A -> attempt B)
  : attempt B :=
  match x with
  | inl reason => inl reason
  | inr a => f a
  end.

(** [data.data]: reading a property of [null] throws, a missing property
    reads as [undefined] (here [None]). *)
Definition readData (data : json) : attempt (option json) :=
  match data with
  | JNull =>
      inl (ErrorObject "Cannot read properties of null (reading 'data')")
  | JObject fields => inr (lookup "data" fields)
  | JBool _ | JNumber _ | JString _ | JArray _ => inr None
  end.

(** How one request ends: [fetch] rejects, or a response arrives with
    its [ok] flag, its status text and what [response.json()] gives. *)
Inductive fetchOutcome :=
| Rejected (reason : thrown)
| Responded (ok : bool) (statusText : string) (body : attempt json).

End Json.

Import Json.

(** The fetch effect of the two catalog browsers.  The two copies differ in
    the endpoint, in the texts of their messages and in how they read the
    envelope; the section is their common text. *)

Module CatalogStore.

Record State := {
  items : list json;
  loading : bool;
  error : option string
}.

Definition setItems (v : list json) (st : State) : State :=
  {| items := v; loading := loading st; error := error st |}.
Definition setLoading (v : bool) (st : State) : State :=
  {| items := items st; loading := v; error := error st |}.
Definition setError (v : option string) (st : State) : State :=
  {| items := items st; loading := loading st; error := v |}.

Section FetchCycle.
(** [`Failed to fetch releases: ${response.statusText}`] *)
Variable failedPrefix : string.
(** the message for a thrown value that is no [Error] *)
Variable fallbackMessage : string.
(** the line that reads the envelope *)
Variable normalize : json -> attempt (list json).

(** The [try] block after the request was sent. *)
Definition tryBlock (outcome : fetchOutcome) : attempt (list json) :=
  match outcome with
  | Rejected reason => inl reason
  | Responded ok statusText body =>
      if negb ok
      then inl (ErrorObject (String.append failedPrefix statusText))
      else andThen body normalize
  end.

(** [setLoading(true); setError(null);] before the request. *)
Definition beforeRequest (st : State) : State :=
  setError None (setLoading true st).

(** The rest of the [try], the [catch] and the [finally]. *)
Definition afterRequest (outcome : fetchOutcome) (st : State) : State :=
  let st :=
    match tryBlock outcome with
    | inr data => setItems data st
    | inl err =>
        let message :=
          match err with
          | ErrorObject message => message
          | OtherThrown => fallbackMessage
          end in
        setItems [] (setError (Some message) st)
    end in
  setLoading false st.

Definition fetchCycle (outcome : fetchOutcome) (st : State) : State :=
  afterRequest outcome (beforeRequest st).
End FetchCycle.

(** [Releases.tsx]:
    [Array.isArray(data.data) ? data.data : (data ? [data] : [])] *)
Definition releasesData (data : json) : attempt (list json) :=
  andThen (readData data)
          (fun field =>
             inr match field with
                 | Some (JArray items) => items
                 | _ => if truthyValue data then [data] else []
                 end).

Definition fetchReleases : fetchOutcome -> State -> State :=
  fetchCycle "Failed to fetch releases: " "Failed to load releases"
             releasesData.

(** dev-builds page:
    [Array.isArray(data.data) ? data.data : (data.data ? [data.data] : [])] *)
Definition buildsData (data : json) : attempt (list json) :=
  andThen (readData data)
          (fun field =>
             inr match field with
                 | Some (JArray items) => items
                 | Some item => if truthyValue item then [item] else []
                 | None => []
                 end).

Definition fetchBuilds : fetchOutcome -> State -> State :=
  fetchCycle "Failed to fetch dev builds: " "Failed to load dev builds"
             buildsData.

End CatalogStore.

(** ** Locale-aware numeric comparison (the wizard's comparator)

    [a.localeCompare(b, undefined, { numeric: true, sensitivity: 'base' })]
    belongs to the host's collator.  With [numeric: true] a run of decimal
    digits is one collation element, ordered by its value; every other
    character is an element of its own; the elements are compared left to
    right and a string that ends first comes first.  Punctuation sorts
    before every number and letters sort after.  [sensitivity: 'base']
    ignores letter case.

    The embedding is exact on strings of ['.'] and of digit runs of the
    length of a version segment, which is where the theorems use it; on
    other characters it orders by the code of the lower-cased character. *)

Module Collation.

Inductive element :=
| Num (value : Z)
| Chr (c : ascii).

Definition closeRun (run : option Z) : list element :=
  match run with Some n => [Num n] | None => [] end.

(** [run] is the value of the digit run being read, if one is open. *)
Fixpoint elements (run : option Z) (s : string) : list element :=
  match s with
  | EmptyString => closeRun run
  | String c rest =>
      if isDigit c
      then elements (Some (10 * orZero run + digitValue c)) rest
      else (closeRun run ++ Chr (lowerChar c) :: elements None rest)%list
  end.

Definition isLetter (c : ascii) : bool :=
  let n := nat_of_ascii c in (97 <=? n)%nat && (n <=? 122)%nat.

Definition sign (c : comparison) : Z :=
  match c with Lt => -1 | Eq => 0 | Gt => 1 end.

Definition compareElement (x y : element) : Z :=
  match x, y with
  | Num a, Num b => sign (a ?= b)
  | Num _, Chr c => if isLetter c then -1 else 1
  | Chr c, Num _ => if isLetter c then 1 else -1
  | Chr c, Chr d => sign (nat_of_ascii c ?= nat_of_ascii d)%nat
  end.

Fixpoint compareElements (xs ys : list element) : Z :=
  match xs, ys with
  | [], [] => 0
  | [], _ :: _ => -1
  | _ :: _, [] => 1
  | x :: xs', y :: ys' =>
      let c := compareElement x y in
      if c =? 0 then compareElements xs' ys' else c
  end.

Definition localeCompareNumeric (a b : string) : Z :=
  compareElements (elements None a) (elements None b).

(** The elements a dot-numeric version is made of: numbers and ['.']. *)
Definition dotElement (x : element) : bool :=
  match x with
  | Num _ => true
  | Chr c => Ascii.eqb c "."
  end.

(** The elements of a dot-numeric version with the given segments. *)
Definition dotted (parts : list Z) : list element :=
  match parts with
  | [] => []
  | n :: rest => Num n :: flat_map (fun m => [Chr "."; Num m]) rest
  end.

End Collation.

Import Collation.

(** ** DownloadWizard ([DownloadModal.tsx]) *)

Module DownloadModal.

Record PlatformMeta := {
  id : string;
  name : string;
  description : string
}.

Record ApiRelease := {
  version : string;
  platform : string;
  build_id : string;
  size : option string;
  file_size : string;
  releaseDate : option string;
  release_date : option string
}.

Definition PLATFORMS_META : list PlatformMeta :=
  [ {| id := "paper"; name := "Paper";
       description := "High-performance server" |};
    {| id := "purpur"; name := "Purpur";
       description := "Feature-rich server" |};
    {| id := "fabric"; name := "Fabric";
       description := "Lightweight mod loader" |} ].

Inductive Step := Step1 | Step2 | Step3.

Definition stepEqb (a b : Step) : bool :=
  match a, b with
  | Step1, Step1 | Step2, Step2 | Step3, Step3 => true
  | _, _ => false
  end.

(** The component's state, with the [isOpen] prop next to it.  The list
    holds what the fetch stored: [A] is [json] for the fetch effect and
    [ApiRelease], the declared interface, for the selection logic. *)
Record State (A : Type) := {
  isOpen : bool;
  step : Step;
  selectedVersion : string;
  selectedPlatform : string;
  releases : list A;
  isLoading : bool;
  error : bool;
  isDownloading : bool
}.

Arguments isOpen {A}.
Arguments step {A}.
Arguments selectedVersion {A}.
Arguments selectedPlatform {A}.
Arguments releases {A}.
Arguments isLoading {A}.
Arguments error {A}.
Arguments isDownloading {A}.

Section Setters.
Context {A : Type}.

(** The [useState] initial values, modal closed. *)
Definition initial : State A :=
  {| isOpen := false; step := Step1; selectedVersion := "";
     selectedPlatform := ""; releases := []; isLoading := true;
     error := false; isDownloading := false |}.

Definition setIsOpen (v : bool) (w : State A) : State A :=
  {| isOpen := v; step := step w; selectedVersion := selectedVersion w;
     selectedPlatform := selectedPlatform w; releases := releases w;
     isLoading := isLoading w; error := error w;
     isDownloading := isDownloading w |}.
Definition setStep (v : Step) (w : State A) : State A :=
  {| isOpen := isOpen w; step := v; selectedVersion := selectedVersion w;
     selectedPlatform := selectedPlatform w; releases := releases w;
     isLoading := isLoading w; error := error w;
     isDownloading := isDownloading w |}.
Definition setSelectedVersion (v : string) (w : State A) : State A :=
  {| isOpen := isOpen w; step := step w; selectedVersion := v;
     selectedPlatform := selectedPlatform w; releases := releases w;
     isLoading := isLoading w; error := error w;
     isDownloading := isDownloading w |}.
Definition setSelectedPlatform (v : string) (w : State A) : State A :=
  {| isOpen := isOpen w; step := step w;
     selectedVersion := selectedVersion w;
     selectedPlatform := v; releases := releases w;
     isLoading := isLoading w; error := error w;
     isDownloading := isDownloading w |}.
Definition setReleases (v : list A) (w : State A) : State A :=
  {| isOpen := isOpen w; step := step w;
     selectedVersion := selectedVersion w;
     selectedPlatform := selectedPlatform w; releases := v;
     isLoading := isLoading w; error := error w;
     isDownloading := isDownloading w |}.
Definition setIsLoading (v : bool) (w : State A) : State A :=
  {| isOpen := isOpen w; step := step w;
     selectedVersion := selectedVersion w;
     selectedPlatform := selectedPlatform w; releases := releases w;
     isLoading := v; error := error w;
     isDownloading := isDownloading w |}.
Definition setError (v : bool) (w : State A) : State A :=
  {| isOpen := isOpen w; step := step w;
     selectedVersion := selectedVersion w;
     selectedPlatform := selectedPlatform w; releases := releases w;
     isLoading := isLoading w; error := v;
     isDownloading := isDownloading w |}.
Definition setIsDownloading (v : bool) (w : State A) : State A :=
  {| isOpen := isOpen w; step := step w;
     selectedVersion := selectedVersion w;
     selectedPlatform := selectedPlatform w; releases := releases w;
     isLoading := isLoading w; error := error w;
     isDownloading := v |}.

(** *** The effect on [isOpen] *)

(** The branch for an open modal, up to the request. *)
Definition openEffect (w : State A) : State A :=
  setIsDownloading false (setError false (setIsLoading true w)).

(** The second [.then]. *)
Definition fetchThen (data : list A) (w : State A) : State A :=
  setIsLoading false (setReleases data w).

(** The [.catch]. *)
Definition fetchCatch (w : State A) : State A :=
  setIsLoading false (setError true w).

(** The timer of the branch for a closed modal, when it fires. *)
Definition resetTimer (w : State A) : State A :=
  setIsDownloading false
    (setSelectedPlatform "" (setSelectedVersion "" (setStep Step1 w))).

(** *** Handlers *)

Definition handleVersionSelect (version : string) (w : State A)
  : State A :=
  setStep Step2 (setSelectedVersion version w).

Definition handlePlatformSelect (platform : string) (w : State A)
  : State A :=
  setStep Step3 (setSelectedPlatform platform w).

(** The [onClose] prop: the parent closes the modal. *)
Definition onClose (w : State A) : State A := setIsOpen false w.

Definition handleClose (w : State A) : State A :=
  if isDownloading w then w else onClose w.

(** After the click on the anchor built for [link]. *)
Definition handleDownloadClick (w : State A) : State A :=
  setIsDownloading true w.

Definition handleAnimationComplete (w : State A) : State A := onClose w.
End Setters.

(** *** The fetch of the wizard, on the envelope as received *)

(** [Array.isArray(data.data) ? data.data : []] *)
Definition releasesData (data : json) : attempt (list json) :=
  andThen (readData data)
          (fun field =>
             inr match field with
                 | Some (JArray items) => items
                 | _ => []
                 end).

(** The promise chain up to the handler that stores the list. *)
Definition thenChain (outcome : fetchOutcome) : attempt (list json) :=
  match outcome with
  | Rejected reason => inl reason
  | Responded ok _ body =>
      if negb ok then inl (ErrorObject "Failed to fetch")
      else andThen body releasesData
  end.

Definition fetchSettled (outcome : fetchOutcome) (w : State json)
  : State json :=
  match thenChain outcome with
  | inr data => fetchThen data w
  | inl _ => fetchCatch w
  end.

(** One fetch cycle of an opened wizard. *)
Definition fetchCycle (outcome : fetchOutcome) (w : State json)
  : State json :=
  fetchSettled outcome (openEffect w).

(** *** Derived values *)

Definition uniqueVersions (releases : list ApiRelease) : list string :=
  let versions := distinct (map version releases) in
  sort (fun a b => localeCompareNumeric b a) versions.

(** The [isAvailable] of a step-2 button. *)
Definition isAvailable (releases : list ApiRelease)
           (selectedVersion : string) (platform : PlatformMeta) : bool :=
  existsb
    (fun r =>
       String.eqb (version r) selectedVersion
       && String.eqb (toLowerCase (DownloadModal.platform r))
                     (toLowerCase (id platform)))
    releases.

Module DownloadData.
Record t := {
  link : string;
  size : string;
  date : string
}.
End DownloadData.

(** [a || b] for an optional string [a]. *)
Definition orElse (a : option string) (b : string) : string :=
  match a with
  | Some s => if JsString.truthy s then s else b
  | None => b
  end.

(** The [releases.find(...)] of [getDownloadData]. *)
Definition matchedRelease (w : State ApiRelease) : option ApiRelease :=
  find (fun d =>
          String.eqb (version d) (selectedVersion w)
          && String.eqb (toLowerCase (platform d))
                        (toLowerCase (selectedPlatform w)))
       (releases w).

(** [today] is [new Date().toISOString().split('T')[0]]. *)
Definition getDownloadData (today : string) (w : State ApiRelease)
  : option DownloadData.t :=
  match matchedRelease w with
  | None => None
  | Some data =>
      Some {| DownloadData.link :=
                orElse
                  (Some (String.append
                           "https://api.pulsemc.dev/release/download/"
                           (build_id data)))
                  "404";
              DownloadData.size :=
                orElse (size data) (orElse (Some (file_size data)) "0");
              DownloadData.date :=
                orElse (releaseDate data) (orElse (release_date data) today)
           |}
  end.

(** What [formatBytes] returns.  The text of a non-zero size is computed
    in floating point ([Math.log], [toFixed]); it is kept as the number
    it is computed from. *)
Inductive SizeText :=
| Literal (text : string)
| Scaled (bytes : Z).

(** [if (!+bytes) return '0 Bytes'; ...] *)
Definition formatBytes (bytes : option Z) : SizeText :=
  match bytes with
  | None => Literal "0 Bytes"
  | Some n => if n =? 0 then Literal "0 Bytes" else Scaled n
  end.

(** The size line of step 3:
    [formatBytes(parseInt(downloadData.size))]. *)
Definition sizeLine (downloadData : DownloadData.t) : SizeText :=
  formatBytes (parseInt (DownloadData.size downloadData)).

(** *** The wizard as a machine: what the rendered controls do *)

Inductive Event :=
| Open                                  (* the parent opens the modal *)
| FetchThen (data : list ApiRelease)    (* the request succeeded *)
| FetchCatch                            (* the request failed *)
| TimerFired                            (* 300 ms after closing *)
| ClickVersion (index : nat)            (* a button of step 1 *)
| ClickPlatform (index : nat)           (* a button of step 2 *)
| ClickBackToVersions
| ClickChangePlatform
| ClickDownload
| ClickClose
| AnimationComplete.

(** The steps are rendered when the list is neither loading nor failed. *)
Definition stepsRendered (w : State ApiRelease) : bool :=
  negb (isLoading w) && negb (error w).

(** The [onClick] of a step-2 button. *)
Definition clickPlatform (platform : PlatformMeta) (w : State ApiRelease)
  : State ApiRelease :=
  if isAvailable (releases w) (selectedVersion w) platform
  then handlePlatformSelect (id platform) w
  else w.

Definition dispatch (today : string) (e : Event) (w : State ApiRelease)
  : State ApiRelease :=
  match e with
  | Open => if isOpen w then w else openEffect (setIsOpen true w)
  | FetchThen data => fetchThen data w
  | FetchCatch => fetchCatch w
  | TimerFired => if isOpen w then w else resetTimer w
  | ClickVersion index =>
      if stepsRendered w && stepEqb (step w) Step1
      then match nth_error (uniqueVersions (releases w)) index with
           | Some version => handleVersionSelect version w
           | None => w
           end
      else w
  | ClickPlatform index =>
      if stepsRendered w && stepEqb (step w) Step2
      then match nth_error PLATFORMS_META index with
           | Some platform => clickPlatform platform w
           | None => w
           end
      else w
  | ClickBackToVersions =>
      if stepsRendered w && stepEqb (step w) Step2
      then setStep Step1 w else w
  | ClickChangePlatform =>
      if stepsRendered w && stepEqb (step w) Step3
      then match getDownloadData today w with
           | Some _ => setStep Step2 w
           | None => w
           end
      else w
  | ClickDownload =>
      if stepsRendered w && stepEqb (step w) Step3
      then match getDownloadData today w with
           | Some _ => handleDownloadClick w
           | None => w
           end
      else w
  | ClickClose => handleClose w
  | AnimationComplete =>
      if isDownloading w then handleAnimationComplete w else w
  end.

Definition run (today : string) (events : list Event)
           (w : State ApiRelease) : State ApiRelease :=
  fold_left (fun w e => dispatch today e w) events w.

(** The invariant of the machine: the selected platform of step 3 is
    one of the ids of the fixed list. *)
Definition platformInvariant (w : State ApiRelease) : Prop :=
  step w = Step3 -> In (selectedPlatform w) (map id PLATFORMS_META).

End DownloadModal.

(** ** The request of a catalog browser

    [new URLSearchParams()], [append] and [toString()]: the
    [application/x-www-form-urlencoded] serializer of the URL standard,
    and the parser that reads such a query back.  The serializer works on
    the UTF-8 bytes of a text, which is what a [string] holds here. *)

Module UrlSearchParams.

(** The characters the serializer leaves as they are: letters, digits
    and [* - . _]. *)
Definition isUnreserved (c : ascii) : bool :=
  let n := nat_of_ascii c in
  ((48 <=? n)%nat && (n <=? 57)%nat)
  || ((65 <=? n)%nat && (n <=? 90)%nat)
  || ((97 <=? n)%nat && (n <=? 122)%nat)
  || (n =? 42)%nat || (n =? 45)%nat || (n =? 46)%nat || (n =? 95)%nat.

Definition hexDigit (n : nat) : ascii :=
  if (n <? 10)%nat then ascii_of_nat (48 + n) else ascii_of_nat (55 + n).

(** One byte of a name or value: kept, a space as [+], or [%XX]. *)
Definition encodeChar (c : ascii) : string :=
  let n := nat_of_ascii c in
  if isUnreserved c then String c EmptyString
  else if (n =? 32)%nat then "+"
  else String "%" (String (hexDigit (n / 16))
                          (String (hexDigit (n mod 16)) EmptyString)).

Fixpoint encode (s : string) : string :=
  match s with
  | EmptyString => EmptyString
  | String c rest => String.append (encodeChar c) (encode rest)
  end.

(** [params.toString()] *)
Definition serialize (params : list (string * string)) : string :=
  String.concat "&"
    (map (fun param =>
            String.append (encode (fst param))
                          (String.append "=" (encode (snd param))))
         params).

(** The parser's side: [+] is a space, [%XX] with two hexadecimal digits
    is the byte, any other character is itself. *)
Fixpoint decode (s : string) : string :=
  match s with
  | EmptyString => EmptyString
  | String c tail =>
      if Ascii.eqb c "+" then String " " (decode tail)
      else if Ascii.eqb c "%" then
        match tail with
        | String h (String l rest) =>
            match hexValue h, hexValue l with
            | Some high, Some low =>
                String (ascii_of_nat (Z.to_nat (16 * high + low)))
                       (decode rest)
            | _, _ => String c (decode tail)
            end
        | _ => String c (decode tail)
        end
      else String c (decode tail)
  end.

(** The text before and the text after the first [sep]; all of the text
    and nothing when there is no [sep]. *)
Fixpoint cutAt (sep : ascii) (s : string) : string * string :=
  match s with
  | EmptyString => (EmptyString, EmptyString)
  | String c rest =>
      if Ascii.eqb c sep then (EmptyString, rest)
      else let (before, after) := cutAt sep rest in (String c before, after)
  end.

(** [new URLSearchParams(query)], as the list of its pairs. *)
Definition parse (query : string) : list (string * string) :=
  map (fun piece =>
         let (name, value) := cutAt "=" piece in (decode name, decode value))
      (filter truthy (split "&" query)).

(** Does [c] occur in [s]? *)
Fixpoint occurs (c : ascii) (s : string) : bool :=
  match s with
  | EmptyString => false
  | String d rest => Ascii.eqb d c || occurs c rest
  end.

End UrlSearchParams.

Module Request.

(** [if (value) params.append(name, value)] for a route parameter, which
    is a string or [undefined]. *)
Definition appendIfSet (name : string) (value : option string)
           (params : list (string * string)) : list (string * string) :=
  match value with
  | Some v => if truthy v then (params ++ [(name, v)])%list else params
  | None => params
  end.

(** The effect on the route's version,
    [if (version) setSelectedVersion(version); else setSelectedVersion('')],
    which is also the initial value [version || '']. *)
Definition selectedVersionOfRoute (version : option string) : string :=
  match version with
  | Some v => if truthy v then v else ""
  | None => ""
  end.

(** The filters a route supplies, as the fetch effect appends them. *)
Definition routeParams (version build_number : option string)
  : list (string * string) :=
  appendIfSet "build_id" build_number (appendIfSet "version" version []).

(** The [url] of [fetchReleases] and [fetchBuilds]; [BASE_URL] comes from
    the configuration module, [endpoint] is ["/releases"] or
    ["/devbuilds"]. *)
Definition requestUrl (BASE_URL endpoint : string)
           (version build_number : option string) : string :=
  let url := String.append BASE_URL endpoint in
  let params := routeParams version build_number in
  if truthy (UrlSearchParams.serialize params)
  then String.append url
                     (String.append "?" (UrlSearchParams.serialize params))
  else url.

End Request.

(** ** What the catalog browsers render *)

Module JsNumber.

(** [String(n)] for an integer below [10^21] in absolute value: its
    decimal digits, with a minus sign when negative. *)
Definition toString (n : Z) : string := NilZero.string_of_int (Z.to_int n).

End JsNumber.

(** [Set<number>] of the expanded changelogs: its elements in insertion
    order. *)
Module JsSet.

Definition has (x : Z) (s : list Z) : bool := existsb (Z.eqb x) s.

Definition add (x : Z) (s : list Z) : list Z :=
  if has x s then s else (s ++ [x])%list.

Definition delete (x : Z) (s : list Z) : list Z :=
  filter (fun y => negb (Z.eqb x y)) s.

End JsSet.

Module ReleasesView.

(** [toggleChangelog], the function handed to [setExpandedReleases]. *)
Definition toggleChangelog (buildId : Z) (prev : list Z) : list Z :=
  let newSet := prev in
  if JsSet.has buildId newSet then JsSet.delete buildId newSet
  else JsSet.add buildId newSet.

(** [expandedReleases.has(release.build_id)] *)
Definition isExpanded (expandedReleases : list Z)
           (release : Releases.Release) : bool :=
  JsSet.has (Releases.build_id release) expandedReleases.

(** The address the Download button of a card opens. *)
Definition downloadUrl (BASE_URL : string) (release : Releases.Release)
  : string :=
  String.append BASE_URL
    (String.append "/release/download/"
                   (JsNumber.toString (Releases.build_id release))).

(** [{error && ...}]: the error panel. *)
Definition errorShown (st : CatalogStore.State) : bool :=
  match CatalogStore.error st with
  | Some message => truthy message
  | None => false
  end.

(** [!loading && !error && processedReleases.length === 0] *)
Definition emptyStateShown (st : CatalogStore.State)
           (processedReleases : list Releases.Release) : bool :=
  negb (CatalogStore.loading st) && negb (errorShown st)
  && (List.length processedReleases =? 0)%nat.

(** The line under "No Releases Found". *)
Definition emptyHint (selectedVersion : string) : string :=
  if truthy selectedVersion
  then String.append "No releases available for version " selectedVersion
  else "Check back later for new releases".

End ReleasesView.

Module DevBuildsView.

Definition downloadUrl (BASE_URL : string) (build : DevBuilds.DevBuild)
  : string :=
  String.append BASE_URL
    (String.append "/devbuild/download/"
                   (JsNumber.toString (DevBuilds.build_id build))).

(** The line under "No Dev Builds Found". *)
Definition emptyHint (selectedVersion selectedPlatform : string) : string :=
  if truthy selectedVersion || truthy selectedPlatform
  then "Try adjusting your version or platform filters"
  else "Check back later for new development builds".

End DevBuildsView.

(** ** The landing page's hero: the effects preference and the server
    counter *)

Module Hero.

Record ServerStats := { activeServers : option json }.

Record State := {
  serverStats : option ServerStats;
  isLoading : bool;
  opacity : Z;
  showEffects : bool
}.

(** The [useState] initial values. *)
Definition initial : State :=
  {| serverStats := None; isLoading := true; opacity := 0;
     showEffects := false |}.

Definition setServerStats (v : option ServerStats) (st : State) : State :=
  {| serverStats := v; isLoading := isLoading st; opacity := opacity st;
     showEffects := showEffects st |}.
Definition setIsLoading (v : bool) (st : State) : State :=
  {| serverStats := serverStats st; isLoading := v; opacity := opacity st;
     showEffects := showEffects st |}.
Definition setOpacity (v : Z) (st : State) : State :=
  {| serverStats := serverStats st; isLoading := isLoading st; opacity := v;
     showEffects := showEffects st |}.
Definition setShowEffects (v : bool) (st : State) : State :=
  {| serverStats := serverStats st; isLoading := isLoading st;
     opacity := opacity st; showEffects := v |}.

(** [JSON.stringify] of a boolean. *)
Definition stringifyBoolean (b : bool) : string :=
  if b then "true" else "false".

(** [JSON.parse] on the two texts that [JSON.stringify] gives for a
    boolean.  Every other text is outside this embedding: [None]. *)
Definition parseBoolean (text : string) : option bool :=
  if String.eqb text "true" then Some true
  else if String.eqb text "false" then Some false
  else None.

(** The first half of the mount effect: [savedSetting] is what
    [localStorage.getItem('pulse_bg_effects')] gave, [None] for [null];
    the result is [None] when the saved text is outside the embedding of
    [JSON.parse]. *)
Definition restoreEffects (savedSetting : option string) (innerWidth : Z)
           (st : State) : option State :=
  match savedSetting with
  | Some text =>
      option_map (fun b => setShowEffects b st) (parseBoolean text)
  | None =>
      let isMobile := innerWidth <? 768 in
      Some (setShowEffects (negb isMobile) st)
  end.

(** [toggleEffects]: the new state and the text stored under
    ['pulse_bg_effects']. *)
Definition toggleEffects (st : State) : State * string :=
  let newValue := negb (showEffects st) in
  (setShowEffects newValue st, stringifyBoolean newValue).

(** [value[1]]: an element of an array, a character of a string, a
    property of an object; reading it off [null] throws. *)
Definition index1 (value : json) : attempt (option json) :=
  match value with
  | JNull =>
      inl (ErrorObject "Cannot read properties of null (reading '1')")
  | JArray items => inr (nth_error items 1)
  | JString s =>
      inr match String.get 1 s with
          | Some c => Some (JString (String c EmptyString))
          | None => None
          end
  | JObject fields => inr (lookup "1" fields)
  | JBool _ | JNumber _ => inr None
  end.

(** The [try] block of [fetchServerStats] up to [setServerStats]: the
    count that is read, or what is thrown. *)
Definition readCount (outcome : fetchOutcome) : attempt (option json) :=
  match outcome with
  | Rejected reason => inl reason
  | Responded ok _ body =>
      if negb ok then inl (ErrorObject "Network response was not ok")
      else andThen body
             (fun data =>
                match data with
                | JArray (first :: others) =>
                    index1 (List.last (first :: others) JNull)
                | _ => inl (ErrorObject "Invalid data format")
                end)
  end.

(** [fetchServerStats] once the request has ended. *)
Definition fetchServerStats (outcome : fetchOutcome) (st : State) : State :=
  let st :=
    match readCount outcome with
    | inr currentCount =>
        setOpacity 1
          (setServerStats (Some {| activeServers := currentCount |}) st)
    | inl _ =>
        setOpacity 1
          (setServerStats
             (Some {| activeServers := Some (JNumber 42) |}) st)
    end in
  setIsLoading false st.

(** What the third counter shows. *)
Inductive Counter :=
| Calculating
| CountUp (to : option json)
| NotAvailable.

Definition counter (st : State) : Counter :=
  if isLoading st then Calculating
  else match serverStats st with
       | Some stats => CountUp (activeServers stats)
       | None => NotAvailable
       end.

End Hero.

(** * Properties *)

(** ** VersionComparator *)

Example split_version : split "." "1.10.0" = ["1"; "10"; "0"].
Proof. reflexivity. Qed.

Example split_empty : split "." "" = [""].
Proof. reflexivity. Qed.

Example parseInt10_suffix : parseInt10 "3-beta" = Some 3.
Proof. reflexivity. Qed.

Example parseInt10_nan : parseInt10 "beta" = None.
Proof. reflexivity. Qed.

Example parseInt10_signed : parseInt10 " -12x" = Some (-12).
Proof. reflexivity. Qed.

Example parseInt_hex : parseInt "0x1F" = Some 31.
Proof. reflexivity. Qed.

Example compare_empty_zero : compareVersions "" "0.0.0" = 0.
Proof. reflexivity. Qed.

Section CompareFrom.

(** One iteration of the loop, as a case analysis on the two numbers. *)
Lemma compareFrom_step steps i p q :
  compareFrom (S steps) i p q =
  match nth i p 0 ?= nth i q 0 with
  | Gt => 1
  | Lt => -1
  | Eq => compareFrom steps (S i) p q
  end.
Proof.
  cbn [compareFrom]. unfold Z.gtb, Z.ltb.
  destruct (nth i p 0 ?= nth i q 0); reflexivity.
Qed.

Lemma compareFrom_range steps : forall i p q,
  compareFrom steps i p q = -1 \/ compareFrom steps i p q = 0
  \/ compareFrom steps i p q = 1.
Proof.
  induction steps as [|steps IH]; intros i p q.
  - right; left; reflexivity.
  - rewrite compareFrom_step.
    destruct (nth i p 0 ?= nth i q 0); auto.
Qed.

Lemma compareFrom_refl steps : forall i p, compareFrom steps i p p = 0.
Proof.
  induction steps as [|steps IH]; intros i p; [reflexivity|].
  rewrite compareFrom_step, Z.compare_refl. apply IH.
Qed.

Lemma compareFrom_antisym steps : forall i p q,
  compareFrom steps i p q = - compareFrom steps i q p.
Proof.
  induction steps as [|steps IH]; intros i p q; [reflexivity|].
  rewrite !compareFrom_step, (Z.compare_antisym (nth i p 0) (nth i q 0)).
  destruct (nth i p 0 ?= nth i q 0); cbn; auto.
Qed.

(** With one number of iterations for the three comparisons, the loop
    is a lexicographic order. *)
Lemma compareFrom_trans steps : forall i p q r,
  compareFrom steps i p q <= 0 ->
  compareFrom steps i q r <= 0 ->
  compareFrom steps i p r <= 0.
Proof.
  induction steps as [|steps IH]; intros i p q r; [cbn; lia|].
  rewrite !compareFrom_step.
  destruct (Z.compare_spec (nth i p 0) (nth i q 0)) as [Hpq|Hpq|Hpq];
    destruct (Z.compare_spec (nth i q 0) (nth i r 0)) as [Hqr|Hqr|Hqr];
    destruct (Z.compare_spec (nth i p 0) (nth i r 0)) as [Hpr|Hpr|Hpr];
    try lia; intros; try lia.
  eapply IH; eassumption.
Qed.

(** Past the end of both arrays every iteration compares [0] with [0]. *)
Lemma compareFrom_past_end steps : forall i p q,
  (List.length p <= i)%nat -> (List.length q <= i)%nat ->
  compareFrom steps i p q = 0.
Proof.
  induction steps as [|steps IH]; intros i p q Hp Hq; [reflexivity|].
  rewrite compareFrom_step, !nth_overflow by assumption.
  cbn. apply IH; lia.
Qed.

(** Iterations beyond the longer array change nothing. *)
Lemma compareFrom_more steps : forall extra i p q,
  (List.length p <= i + steps)%nat -> (List.length q <= i + steps)%nat ->
  compareFrom (steps + extra) i p q = compareFrom steps i p q.
Proof.
  induction steps as [|steps IH]; intros extra i p q Hp Hq.
  - cbn [Nat.add compareFrom]. apply compareFrom_past_end; lia.
  - cbn [Nat.add]. rewrite !compareFrom_step.
    destruct (nth i p 0 ?= nth i q 0); try reflexivity.
    apply IH; lia.
Qed.

Lemma compareFrom_upto n p q :
  (Nat.max (List.length p) (List.length q) <= n)%nat ->
  compareFrom n 0 p q =
  compareFrom (Nat.max (List.length p) (List.length q)) 0 p q.
Proof.
  intros Hn.
  replace n with (Nat.max (List.length p) (List.length q)
                  + (n - Nat.max (List.length p) (List.length q)))%nat
    at 1 by lia.
  apply compareFrom_more; lia.
Qed.

End CompareFrom.

Lemma compareVersions_range a b :
  compareVersions a b = -1 \/ compareVersions a b = 0
  \/ compareVersions a b = 1.
Proof. apply compareFrom_range. Qed.

Lemma compareVersions_refl a : compareVersions a a = 0.
Proof. apply compareFrom_refl. Qed.

Lemma compareVersions_antisym a b :
  compareVersions a b = - compareVersions b a.
Proof.
  unfold compareVersions. cbv zeta.
  rewrite (Nat.max_comm (List.length (versionParts a))).
  apply compareFrom_antisym.
Qed.

Lemma compareVersions_trans a b c :
  compareVersions a b <= 0 -> compareVersions b c <= 0 ->
  compareVersions a c <= 0.
Proof.
  unfold compareVersions. cbv zeta.
  set (p := versionParts a). set (q := versionParts b).
  set (r := versionParts c).
  set (n := Nat.max (List.length p)
                    (Nat.max (List.length q) (List.length r))).
  rewrite <- (compareFrom_upto n p q), <- (compareFrom_upto n q r),
    <- (compareFrom_upto n p r) by (subst n; lia).
  apply compareFrom_trans.
Qed.

(** C7.  [compareVersions] is a total order on version strings: a version
    compares equal to itself, swapping the arguments negates the result,
    the ordering it induces is transitive, any two versions are comparable,
    and every result is [-1], [0] or [1]. *)
Theorem compareVersions_total_order (a b c : string) :
  compareVersions a a = 0
  /\ compareVersions a b = - compareVersions b a
  /\ (compareVersions a b <= 0 -> compareVersions b c <= 0 ->
      compareVersions a c <= 0)
  /\ (compareVersions a b <= 0 \/ compareVersions b a <= 0)
  /\ In (compareVersions a b) [-1; 0; 1].
Proof.
  split; [apply compareVersions_refl|].
  split; [apply compareVersions_antisym|].
  split; [apply compareVersions_trans|].
  split.
  - rewrite (compareVersions_antisym b a). lia.
  - cbn. destruct (compareVersions_range a b) as [H|[H|H]]; auto.
Qed.

(** The chain 1.2, 1.10, 2 in ascending order. *)
Lemma compareVersions_total_order_chain :
  compareVersions "1.2" "2" <= 0.
Proof.
  apply (proj1 (proj2 (proj2 (compareVersions_total_order
                                "1.2" "1.10" "2"))));
    discriminate.
Defined.

Lemma split_nonempty sep s : split sep s <> [].
Proof.
  destruct s as [|c s]; cbn; [discriminate|].
  destruct (Ascii.eqb c sep); [discriminate|].
  destruct (split sep s); discriminate.
Qed.

Lemma split_trailing_zero v :
  split "." (String.append v ".0") = (split "." v ++ ["0"])%list.
Proof.
  induction v as [|c v IH]; [reflexivity|].
  cbn [String.append split]. rewrite IH.
  destruct (Ascii.eqb c "."); [reflexivity|].
  destruct (split "." v) as [|piece pieces] eqn:Hsplit;
    [now destruct (split_nonempty "." v) | reflexivity].
Qed.

Lemma compareFrom_same_numbers steps : forall i p q,
  (forall j, nth j p 0 = nth j q 0) -> compareFrom steps i p q = 0.
Proof.
  induction steps as [|steps IH]; intros i p q Hsame; [reflexivity|].
  rewrite compareFrom_step, Hsame, Z.compare_refl. now apply IH.
Qed.

Lemma compareVersions_trailing_zero v :
  compareVersions v (String.append v ".0") = 0.
Proof.
  unfold compareVersions, versionParts. cbv zeta.
  rewrite split_trailing_zero, map_app.
  apply compareFrom_same_numbers. intros j.
  change (map (fun p => orZero (parseInt10 p)) ["0"]) with [0].
  destruct (Nat.lt_ge_cases j
              (List.length (map (fun p => orZero (parseInt10 p))
                                (split "." v)))) as [Hlt|Hge].
  - now rewrite app_nth1.
  - rewrite app_nth2, nth_overflow by exact Hge.
    now destruct (j - _)%nat as [|[|k]].
Qed.

(** C8.  Segments are compared as numbers, where the order of the
    strings says the opposite, and missing trailing segments count as
    zero: ["1.10.0"] is above ["1.9.9"], ["2.0"] equals ["2.0.0"], and
    every version equals itself with [".0"] appended. *)
Theorem compareVersions_numeric_segments :
  compareVersions "1.10.0" "1.9.9" = 1
  /\ compareCodeUnits "1.10.0" "1.9.9" = -1
  /\ compareVersions "2.0" "2.0.0" = 0
  /\ (forall v, compareVersions v (String.append v ".0") = 0).
Proof.
  repeat split. apply compareVersions_trailing_zero.
Qed.

(** ** Sorting with a comparator *)

Section SortFacts.
Context {A : Type}.
Variable compareFn : A -> A -> Z.

Lemma insertSorted_perm x l :
  Permutation (insertSorted compareFn x l) (x :: l).
Proof.
  induction l as [|y l IH]; cbn; [reflexivity|].
  destruct (compareFn x y <=? 0); [reflexivity|].
  rewrite IH. apply perm_swap.
Qed.

Lemma sort_perm l : Permutation (sort compareFn l) l.
Proof.
  induction l as [|x l IH]; cbn; [reflexivity|].
  rewrite insertSorted_perm. now constructor.
Qed.

Lemma sort_In l x : In x (sort compareFn l) <-> In x l.
Proof.
  split; apply Permutation_in; [|symmetry]; apply sort_perm.
Qed.

(** The comparator is a consistent ordering. *)
Hypothesis compareFn_total :
  forall x y, 0 < compareFn x y -> compareFn y x <= 0.
Hypothesis compareFn_trans :
  forall x y z, compareFn x y <= 0 -> compareFn y z <= 0 ->
                compareFn x z <= 0.

Local Abbreviation before := (fun x y : A => compareFn x y <= 0).

Lemma insertSorted_sorted x l :
  StronglySorted before l ->
  StronglySorted before (insertSorted compareFn x l).
Proof.
  induction 1 as [|y l Hsorted IH Hall]; cbn.
  - repeat constructor.
  - destruct (Z.leb_spec (compareFn x y) 0) as [Hle|Hgt].
    + constructor; [now constructor|].
      constructor; [exact Hle|].
      eapply Forall_impl; [|exact Hall].
      intros z Hz. eapply compareFn_trans; eassumption.
    + constructor; [exact IH|].
      eapply Permutation_Forall; [symmetry; apply insertSorted_perm|].
      constructor; [now apply compareFn_total | exact Hall].
Qed.

Lemma sort_sorted l : StronglySorted before (sort compareFn l).
Proof.
  induction l as [|x l IH]; cbn; [constructor|].
  now apply insertSorted_sorted.
Qed.

End SortFacts.

Lemma StronglySorted_weaken {A : Type} (R S : A -> A -> Prop) l :
  (forall x y, R x y -> S x y) ->
  StronglySorted R l -> StronglySorted S l.
Proof.
  intros HRS. induction 1 as [|x l Hsorted IH Hall]; constructor.
  - exact IH.
  - eapply Forall_impl; [|exact Hall]. intros y. apply HRS.
Qed.

Lemma filter_filter {A : Type} (p q : A -> bool) l :
  filter q (filter p l) = filter (fun x => p x && q x) l.
Proof.
  induction l as [|x l IH]; cbn; [reflexivity|].
  destruct (p x); cbn; [destruct (q x)|]; now rewrite IH.
Qed.

Lemma filter_all {A : Type} (l : list A) : filter (fun _ => true) l = l.
Proof. induction l as [|x l IH]; cbn; now rewrite ?IH. Qed.

(** ** FilterEngine *)

Section FilterEngineFacts.
Variable Artifact : Type.
Variable version platform : Artifact -> string.
Variable build_id : Artifact -> Z.

Local Abbreviation compareFn :=
  (FilterEngine.byVersionThenBuild Artifact version build_id).
Local Abbreviation visible :=
  (FilterEngine.processed Artifact version platform build_id).

Local Abbreviation passes := (FilterEngine.passes Artifact version platform).
Local Abbreviation descending :=
  (FilterEngine.descending Artifact version build_id).

Lemma byVersionThenBuild_descending a b :
  compareFn a b <= 0 <-> descending a b.
Proof.
  unfold compareFn, FilterEngine.byVersionThenBuild, descending,
    FilterEngine.descending.
  cbv zeta.
  rewrite (compareVersions_antisym (version b) (version a)).
  destruct (compareVersions_range (version a) (version b)) as [H|[H|H]];
    rewrite H; cbn; lia.
Qed.

Lemma byVersionThenBuild_total a b :
  0 < compareFn a b -> compareFn b a <= 0.
Proof.
  unfold compareFn, FilterEngine.byVersionThenBuild. cbv zeta.
  rewrite (compareVersions_antisym (version b) (version a)).
  destruct (compareVersions_range (version a) (version b)) as [H|[H|H]];
    rewrite H; cbn; lia.
Qed.

Lemma byVersionThenBuild_trans a b c :
  compareFn a b <= 0 -> compareFn b c <= 0 -> compareFn a c <= 0.
Proof.
  rewrite !byVersionThenBuild_descending.
  unfold descending, FilterEngine.descending.
  pose proof (compareVersions_trans (version a) (version b) (version c)).
  pose proof (compareVersions_trans (version c) (version b) (version a)).
  pose proof (compareVersions_trans (version b) (version c) (version a)).
  pose proof (compareVersions_trans (version c) (version a) (version b)).
  pose proof (compareVersions_trans (version b) (version a) (version c)).
  pose proof (compareVersions_trans (version a) (version c) (version b)).
  pose proof (compareVersions_antisym (version a) (version b)).
  pose proof (compareVersions_antisym (version b) (version c)).
  pose proof (compareVersions_antisym (version a) (version c)).
  destruct (compareVersions_range (version a) (version c)) as [E|[E|E]];
    lia.
Qed.

Lemma processed_as_filter items selectedVersion selectedPlatform :
  visible items selectedVersion selectedPlatform =
  sort compareFn (filter (passes selectedVersion selectedPlatform) items).
Proof.
  unfold visible, FilterEngine.processed, passes, FilterEngine.passes.
  cbv zeta.
  f_equal.
  destruct (JsString.truthy selectedVersion),
    (JsString.truthy selectedPlatform); cbn.
  - apply filter_filter.
  - rewrite <- (filter_all (filter _ items)) at 1. apply filter_filter.
  - reflexivity.
  - symmetry. apply filter_all.
Qed.

Lemma processed_perm items selectedVersion selectedPlatform :
  Permutation (visible items selectedVersion selectedPlatform)
              (filter (passes selectedVersion selectedPlatform) items).
Proof. rewrite processed_as_filter. apply sort_perm. Qed.

Lemma processed_sorted items selectedVersion selectedPlatform :
  StronglySorted descending
                 (visible items selectedVersion selectedPlatform).
Proof.
  rewrite processed_as_filter.
  eapply StronglySorted_weaken;
    [|apply (sort_sorted compareFn byVersionThenBuild_total
                         byVersionThenBuild_trans)].
  intros a b. apply byVersionThenBuild_descending.
Qed.

Lemma passes_spec selectedVersion selectedPlatform r :
  passes selectedVersion selectedPlatform r = true <->
  (selectedVersion = "" \/ version r = selectedVersion)
  /\ (selectedPlatform = "" \/ platform r = selectedPlatform).
Proof.
  unfold passes, FilterEngine.passes.
  rewrite andb_true_iff, !orb_true_iff, !String.eqb_eq, !negb_true_iff.
  assert (Hfalsy : forall s, JsString.truthy s = false <-> s = "")
    by (intros [|c s]; cbn; split; congruence).
  now rewrite !Hfalsy.
Qed.

End FilterEngineFacts.

(** C6.  The visible list of a catalog browser keeps the artifacts that
    match each filter that is set, exactly, and orders them by version
    descending with the build id descending among equal versions; the
    three-artifact catalog with no filter comes out as 2.0/1, 1.0/5,
    1.0/3. *)
Theorem visible_filters_then_sorts_descending :
  (forall (Artifact : Type) (version platform : Artifact -> string)
          (build_id : Artifact -> Z) (items : list Artifact)
          (selectedVersion selectedPlatform : string),
      let shown :=
        FilterEngine.processed Artifact version platform build_id
                               items selectedVersion selectedPlatform in
      Permutation shown
        (filter (FilterEngine.passes Artifact version platform
                                     selectedVersion selectedPlatform) items)
      /\ (forall r, In r shown <->
                    In r items
                    /\ (selectedVersion = "" \/ version r = selectedVersion)
                    /\ (selectedPlatform = ""
                        \/ platform r = selectedPlatform))
      /\ StronglySorted (FilterEngine.descending Artifact version build_id)
                        shown)
  /\ (let release v b :=
        {| Releases.version := v; Releases.platform := "paper";
           Releases.build_id := b; Releases.changelog := "";
           Releases.filename := ""; Releases.file_size := 0;
           Releases.upload_timestamp := "" |} in
      Releases.processedReleases
        [release "1.0" 5; release "1.0" 3; release "2.0" 1] "" ""
      = [release "2.0" 1; release "1.0" 5; release "1.0" 3])
  /\ (let build v b :=
        {| DevBuilds.version := v; DevBuilds.build_id := b;
           DevBuilds.commit_hash := ""; DevBuilds.author := "";
           DevBuilds.commit_message := ""; DevBuilds.platform := "paper";
           DevBuilds.upload_timestamp := "" |} in
      DevBuilds.processedBuilds
        [build "1.0" 5; build "1.0" 3; build "2.0" 1] "" ""
      = [build "2.0" 1; build "1.0" 5; build "1.0" 3]).
Proof.
  split; [|split; reflexivity].
  intros Artifact version platform build_id items sv sp shown.
  split; [apply processed_perm|].
  split; [|apply processed_sorted].
  intros r. subst shown.
  rewrite processed_as_filter, sort_In, filter_In, passes_spec.
  reflexivity.
Qed.

(** C9.  The platform filter is a single-valued toggle: selecting the
    active platform clears the filter, and the visible list is then the
    one without a platform filter; selecting any other platform replaces
    the filter by it; and the same selection made twice in a row, from the
    cleared filter or from any other platform, leaves the filter
    cleared. *)
Theorem platform_filter_toggle (active plat : string) :
  FilterEngine.handlePlatformFilter active active = ""
  /\ (forall (Artifact : Type) (version platform : Artifact -> string)
             (build_id : Artifact -> Z) items selectedVersion,
         FilterEngine.processed
           Artifact version platform build_id items selectedVersion
           (FilterEngine.handlePlatformFilter active active)
         = sort (FilterEngine.byVersionThenBuild Artifact version build_id)
                (if JsString.truthy selectedVersion
                 then filter (fun r => String.eqb (version r) selectedVersion)
                             items
                 else items))
  /\ (plat <> active -> FilterEngine.handlePlatformFilter plat active = plat)
  /\ FilterEngine.handlePlatformFilter
       plat (FilterEngine.handlePlatformFilter plat "") = ""
  /\ (plat <> active ->
      FilterEngine.handlePlatformFilter
        plat (FilterEngine.handlePlatformFilter plat active) = "").
Proof.
  unfold FilterEngine.handlePlatformFilter.
  rewrite (String.eqb_refl active).
  split; [reflexivity|]. split; [reflexivity|].
  split; [|split].
  - intros Hne. destruct (String.eqb_spec active plat); congruence.
  - destruct (String.eqb_spec "" plat) as [<-|Hne]; [reflexivity|].
    now rewrite String.eqb_refl.
  - intros Hne. destruct (String.eqb_spec active plat); [congruence|].
    now rewrite String.eqb_refl.
Qed.

(** The toggle on the platforms of the wizard's list: [fabric] is
    active, [paper] is clicked twice. *)
Lemma platform_filter_toggle_paper :
  FilterEngine.handlePlatformFilter "paper" "fabric" = "paper"
  /\ FilterEngine.handlePlatformFilter
       "paper" (FilterEngine.handlePlatformFilter "paper" "fabric") = "".
Proof.
  destruct (platform_filter_toggle "fabric" "paper")
    as (_ & _ & Hreplace & _ & Htwice).
  split; [apply Hreplace | apply Htwice]; discriminate.
Defined.

(** ** CatalogStore *)

Example releases_envelope_without_data_is_wrapped :
  CatalogStore.releasesData (JObject [("data", JNull)])
  = inr [JObject [("data", JNull)]].
Proof. reflexivity. Qed.

Example builds_single_object :
  CatalogStore.buildsData
    (JObject [("data", JObject [("build_id", JNumber 7)])])
  = inr [JObject [("build_id", JNumber 7)]].
Proof. reflexivity. Qed.

Lemma fetchCycle_success prefix fallback normalize statusText data stored st :
  normalize data = inr stored ->
  CatalogStore.fetchCycle prefix fallback normalize
    (Responded true statusText (inr data)) st
  = {| CatalogStore.items := stored; CatalogStore.loading := false;
       CatalogStore.error := None |}.
Proof.
  intros Hnormalize.
  unfold CatalogStore.fetchCycle, CatalogStore.afterRequest,
    CatalogStore.tryBlock.
  cbn. now rewrite Hnormalize.
Qed.

(** C1, as the three consumers read the envelope.  An array in [data]
    is stored as it is by the releases browser, the dev-builds browser and
    the wizard.  The dev-builds browser stores a single object in [data]
    as the one-element sequence of that object and stores the empty
    sequence for a [data] that is null or absent.  The wizard stores the
    empty sequence for every [data] that is not an array.  None of these
    cases raises an error. *)
Theorem envelope_normalization_by_consumer :
  (forall fields items statusText st w,
      lookup "data" fields = Some (JArray items) ->
      CatalogStore.fetchReleases
        (Responded true statusText (inr (JObject fields))) st
      = {| CatalogStore.items := items; CatalogStore.loading := false;
           CatalogStore.error := None |}
      /\ CatalogStore.fetchBuilds
           (Responded true statusText (inr (JObject fields))) st
         = {| CatalogStore.items := items; CatalogStore.loading := false;
              CatalogStore.error := None |}
      /\ DownloadModal.releases
           (DownloadModal.fetchCycle
              (Responded true statusText (inr (JObject fields))) w)
         = items
      /\ DownloadModal.error
           (DownloadModal.fetchCycle
              (Responded true statusText (inr (JObject fields))) w)
         = false)
  /\ (forall fields object statusText st,
         lookup "data" fields = Some (JObject object) ->
         CatalogStore.fetchBuilds
           (Responded true statusText (inr (JObject fields))) st
         = {| CatalogStore.items := [JObject object];
              CatalogStore.loading := false;
              CatalogStore.error := None |})
  /\ (forall fields statusText st,
         lookup "data" fields = None \/ lookup "data" fields = Some JNull ->
         CatalogStore.fetchBuilds
           (Responded true statusText (inr (JObject fields))) st
         = {| CatalogStore.items := []; CatalogStore.loading := false;
              CatalogStore.error := None |})
  /\ (forall fields statusText w,
         (forall items, lookup "data" fields <> Some (JArray items)) ->
         DownloadModal.releases
           (DownloadModal.fetchCycle
              (Responded true statusText (inr (JObject fields))) w)
         = []
         /\ DownloadModal.error
              (DownloadModal.fetchCycle
                 (Responded true statusText (inr (JObject fields))) w)
            = false).
Proof.
  split; [|split; [|split]].
  - intros fields items statusText st w Hdata.
    split; [|split].
    + apply fetchCycle_success.
      unfold CatalogStore.releasesData. cbn. now rewrite Hdata.
    + apply fetchCycle_success.
      unfold CatalogStore.buildsData. cbn. now rewrite Hdata.
    + unfold DownloadModal.fetchCycle, DownloadModal.fetchSettled,
        DownloadModal.thenChain, DownloadModal.releasesData.
      cbn. rewrite Hdata. split; reflexivity.
  - intros fields object statusText st Hdata.
    apply fetchCycle_success.
    unfold CatalogStore.buildsData. cbn. now rewrite Hdata.
  - intros fields statusText st Hdata.
    apply fetchCycle_success.
    unfold CatalogStore.buildsData. cbn.
    destruct Hdata as [-> | ->]; reflexivity.
  - intros fields statusText w Hdata.
    unfold DownloadModal.fetchCycle, DownloadModal.fetchSettled,
      DownloadModal.thenChain, DownloadModal.releasesData.
    cbn.
    destruct (lookup "data" fields) as [[| | | |items|]|];
      try (split; reflexivity).
    now destruct (Hdata items).
Qed.

(** The dev-builds browser on an envelope with one build in [data]. *)
Lemma envelope_normalization_single_build :
  let build := JObject [("build_id", JNumber 7)] in
  CatalogStore.fetchBuilds
    (Responded true "OK" (inr (JObject [("data", build)])))
    {| CatalogStore.items := []; CatalogStore.loading := true;
       CatalogStore.error := None |}
  = {| CatalogStore.items := [build]; CatalogStore.loading := false;
       CatalogStore.error := None |}.
Proof.
  intros build.
  apply (proj1 (proj2 envelope_normalization_by_consumer)
               [("data", build)] [("build_id", JNumber 7)]).
  reflexivity.
Defined.

(** C1 as stated fails in the wizard: a single object in [data] is stored
    as the empty sequence, not as the sequence of that object. *)
Lemma wizard_drops_single_object :
  let object := JObject [("version", JString "1.20")] in
  let w := DownloadModal.fetchCycle
             (Responded true "OK" (inr (JObject [("data", object)])))
             DownloadModal.initial in
  DownloadModal.releases w = [] /\ DownloadModal.releases w <> [object].
Proof. cbn. split; [reflexivity | discriminate]. Qed.

(** C3, as the consumers do it.  In both catalog browsers the loading flag
    is raised before the request and lowered after it, whatever the
    outcome, and a failed request (a rejected fetch, a status that is not
    2xx, a body that does not parse) empties the list and records a
    message: the text of the thrown error, the page's message followed by
    the status text, or the fallback text for a thrown value that is no
    error; so does every other way the [try] block throws.  In the wizard the loading flag is raised and lowered the same
    way, and a failed request raises the error flag and leaves the list as
    it was. *)
Theorem fetch_cycle_flags_and_failures :
  (forall prefix fallback normalize outcome st,
      let fetch := CatalogStore.fetchCycle prefix fallback normalize in
      CatalogStore.loading (CatalogStore.beforeRequest st) = true
      /\ CatalogStore.loading (fetch outcome st) = false)
  /\ (forall prefix fallback normalize st,
         let fetch := CatalogStore.fetchCycle prefix fallback normalize in
         let messageOf reason :=
           match reason with
           | ErrorObject message => message
           | OtherThrown => fallback
           end in
         (forall reason,
             CatalogStore.items (fetch (Rejected reason) st) = []
             /\ CatalogStore.error (fetch (Rejected reason) st)
                = Some (messageOf reason))
         /\ (forall statusText body,
                CatalogStore.items
                  (fetch (Responded false statusText body) st) = []
                /\ CatalogStore.error
                     (fetch (Responded false statusText body) st)
                   = Some (String.append prefix statusText))
         /\ (forall statusText reason,
                CatalogStore.items
                  (fetch (Responded true statusText (inl reason)) st) = []
                /\ CatalogStore.error
                     (fetch (Responded true statusText (inl reason)) st)
                   = Some (messageOf reason))
         /\ (forall outcome reason,
                CatalogStore.tryBlock prefix normalize outcome = inl reason ->
                CatalogStore.items (fetch outcome st) = []
                /\ CatalogStore.error (fetch outcome st)
                   = Some (messageOf reason)))
  /\ (forall outcome (w : DownloadModal.State json),
         DownloadModal.isLoading (DownloadModal.openEffect w) = true
         /\ DownloadModal.isLoading (DownloadModal.fetchCycle outcome w)
            = false)
  /\ (forall outcome reason (w : DownloadModal.State json),
         DownloadModal.thenChain outcome = inl reason ->
         DownloadModal.error (DownloadModal.fetchCycle outcome w) = true
         /\ DownloadModal.releases (DownloadModal.fetchCycle outcome w)
            = DownloadModal.releases w).
Proof.
  split; [|split; [|split]].
  - intros prefix fallback normalize outcome st fetch.
    split; reflexivity.
  - intros prefix fallback normalize st fetch messageOf.
    subst fetch messageOf.
    unfold CatalogStore.fetchCycle, CatalogStore.afterRequest.
    split; [|split; [|split]].
    + intros reason. split; reflexivity.
    + intros statusText body. split; reflexivity.
    + intros statusText reason. split; reflexivity.
    + intros outcome reason Hfail. rewrite Hfail. split; reflexivity.
  - intros outcome w. split; [reflexivity|].
    unfold DownloadModal.fetchCycle, DownloadModal.fetchSettled.
    destruct (DownloadModal.thenChain outcome); reflexivity.
  - intros outcome reason w Hfail.
    unfold DownloadModal.fetchCycle, DownloadModal.fetchSettled.
    rewrite Hfail. split; reflexivity.
Qed.

(** The wizard on a rejected request. *)
Lemma fetch_cycle_wizard_rejected :
  let w := DownloadModal.fetchCycle (Rejected (ErrorObject "Failed to fetch"))
                                    DownloadModal.initial in
  DownloadModal.error w = true /\ DownloadModal.releases w = [].
Proof.
  apply (proj2 (proj2 (proj2 fetch_cycle_flags_and_failures))
               (Rejected (ErrorObject "Failed to fetch"))
               (ErrorObject "Failed to fetch")).
  reflexivity.
Defined.

(** C3 as stated fails in the wizard: a list loaded by an earlier opening
    is still there after a failed request. *)
Lemma wizard_keeps_list_on_failure :
  let object := JObject [("version", JString "1.20")] in
  let loaded := DownloadModal.fetchCycle
                  (Responded true "OK"
                             (inr (JObject [("data", JArray [object])])))
                  DownloadModal.initial in
  let failed := DownloadModal.fetchCycle
                  (Responded false "Service Unavailable" (inl OtherThrown))
                  loaded in
  DownloadModal.isLoading failed = false
  /\ DownloadModal.error failed = true
  /\ DownloadModal.releases failed = [object]
  /\ DownloadModal.releases failed <> [].
Proof. cbn. repeat split; discriminate. Qed.

(** ** DownloadWizard *)

Import DownloadModal.

Lemma isAvailable_spec releases selectedVersion platform :
  isAvailable releases selectedVersion platform = true <->
  exists r, In r releases
            /\ version r = selectedVersion
            /\ toLowerCase (DownloadModal.platform r)
               = toLowerCase (id platform).
Proof.
  unfold isAvailable. rewrite existsb_exists.
  split; intros (r & Hin & Hmatch); exists r; split; try exact Hin.
  - apply andb_true_iff in Hmatch.
    now rewrite !String.eqb_eq in Hmatch.
  - apply andb_true_iff. now rewrite !String.eqb_eq.
Qed.

(** C2.  At step 2 the click on a platform moves the wizard to step 3
    only when an artifact of the wizard's list has the selected version
    and a platform equal to the platform's id up to letter case, and it
    then selects that id; with no such artifact the click leaves the whole
    state as it was, at step 2 and with the selected platform unchanged.
    The buttons of step 2 run exactly this handler. *)
Theorem platform_click_needs_matching_artifact
        (w : State ApiRelease) (candidate : PlatformMeta) :
  step w = Step2 ->
  let w' := clickPlatform candidate w in
  (step w' = Step3 ->
   selectedPlatform w' = id candidate
   /\ exists r, In r (releases w)
                /\ version r = selectedVersion w
                /\ toLowerCase (platform r) = toLowerCase (id candidate))
  /\ ((forall r, In r (releases w) ->
                 version r = selectedVersion w ->
                 toLowerCase (platform r) <> toLowerCase (id candidate)) ->
      w' = w /\ step w' = Step2 /\ selectedPlatform w' = selectedPlatform w)
  /\ (forall today index,
         stepsRendered w = true ->
         nth_error PLATFORMS_META index = Some candidate ->
         dispatch today (ClickPlatform index) w = w').
Proof.
  intros Hstep w'. subst w'. unfold clickPlatform.
  destruct (isAvailable (releases w) (selectedVersion w) candidate) eqn:Hav.
  - split; [|split].
    + intros _. split; [reflexivity|]. now apply isAvailable_spec.
    + intros Hnone. apply isAvailable_spec in Hav.
      destruct Hav as (r & Hin & Hver & Hplat).
      now destruct (Hnone r Hin Hver).
    + intros today index Hrendered Hnth. cbn.
      rewrite Hrendered, Hstep, Hnth. cbn.
      unfold clickPlatform. now rewrite Hav.
  - split; [|split].
    + rewrite Hstep. discriminate.
    + intros _. auto.
    + intros today index Hrendered Hnth. cbn.
      rewrite Hrendered, Hstep, Hnth. cbn.
      unfold clickPlatform. now rewrite Hav.
Qed.

(** Version 1.20 exists for Fabric only: the click on Paper changes
    nothing. *)
Lemma platform_click_blocked_for_paper :
  let fabric_1_20 :=
    {| version := "1.20"; platform := "Fabric"; build_id := "41";
       size := None; file_size := "1048576"; releaseDate := None;
       release_date := None |} in
  let w :=
    {| isOpen := true; step := Step2; selectedVersion := "1.20";
       selectedPlatform := ""; releases := [fabric_1_20];
       isLoading := false; error := false; isDownloading := false |} in
  let paper := {| id := "paper"; name := "Paper";
                  description := "High-performance server" |} in
  clickPlatform paper w = w
  /\ step (clickPlatform paper w) = Step2
  /\ selectedPlatform (clickPlatform paper w) = "".
Proof.
  intros fabric_1_20 w paper.
  refine (proj1 (proj2 (platform_click_needs_matching_artifact
                          w paper eq_refl)) _).
  intros r [<-|[]] _. discriminate.
Defined.

Example platform_click_available_for_fabric :
  let fabric_1_20 :=
    {| version := "1.20"; platform := "Fabric"; build_id := "41";
       size := None; file_size := "1048576"; releaseDate := None;
       release_date := None |} in
  let w :=
    run "2025-01-01"
        [Open; FetchThen [fabric_1_20]; ClickVersion 0; ClickPlatform 0;
         ClickPlatform 2]
        initial in
  step w = Step3 /\ selectedPlatform w = "fabric"
  /\ matchedRelease w = Some fabric_1_20.
Proof. repeat split. Qed.

Lemma distinct_In l x : In x (distinct l) <-> In x l.
Proof.
  induction l as [|y l IH]; cbn; [reflexivity|].
  rewrite filter_In, IH, negb_true_iff.
  destruct (String.eqb_spec y x) as [->|Hne]; intuition congruence.
Qed.

Lemma availablePlatforms_In (Artifact : Type) (platform : Artifact -> string)
      items p :
  In p (FilterEngine.availablePlatforms Artifact platform items) <->
  exists r, In r items /\ platform r = p.
Proof.
  unfold FilterEngine.availablePlatforms. cbv zeta.
  rewrite sort_In, distinct_In, in_map_iff.
  split; intros (r & H1 & H2); exists r; auto.
Qed.

Lemma dispatch_platformInvariant today e w :
  platformInvariant w -> platformInvariant (dispatch today e w).
Proof.
  unfold platformInvariant. intros Hinv.
  destruct e as [|data| | |index|index| | | | |]; cbn [dispatch].
  - destruct (isOpen w); exact Hinv.
  - exact Hinv.
  - exact Hinv.
  - destruct (isOpen w); [exact Hinv | discriminate].
  - destruct (stepsRendered w && stepEqb (step w) Step1); [|exact Hinv].
    destruct (nth_error _ index); [discriminate | exact Hinv].
  - destruct (stepsRendered w && stepEqb (step w) Step2); [|exact Hinv].
    destruct (nth_error PLATFORMS_META index) as [candidate|] eqn:Hnth;
      [|exact Hinv].
    unfold clickPlatform.
    destruct (isAvailable _ _ candidate); [|exact Hinv].
    intros _. cbn [handlePlatformSelect setStep setSelectedPlatform
                   selectedPlatform].
    apply in_map. eapply nth_error_In; eassumption.
  - destruct (stepsRendered w && stepEqb (step w) Step2);
      [discriminate | exact Hinv].
  - destruct (stepsRendered w && stepEqb (step w) Step3); [|exact Hinv].
    destruct (getDownloadData today w); [discriminate | exact Hinv].
  - destruct (stepsRendered w && stepEqb (step w) Step3); [|exact Hinv].
    destruct (getDownloadData today w); exact Hinv.
  - unfold handleClose. destruct (isDownloading w); exact Hinv.
  - destruct (isDownloading w); exact Hinv.
Qed.

Lemma run_platformInvariant today events : forall w,
  platformInvariant w -> platformInvariant (run today events w).
Proof.
  induction events as [|e events IH]; intros w Hinv; [exact Hinv|].
  cbn. apply IH. now apply dispatch_platformInvariant.
Qed.

(** C10.  The platforms offered at step 2 are the fixed list paper,
    purpur, fabric, whatever the catalog holds: after any sequence of
    events from the initial state, the artifact that step 3 resolves has a
    platform equal, up to letter case, to one of these three ids.  The
    catalog browsers instead list exactly the platforms that occur in
    their catalog. *)
Theorem wizard_resolves_fixed_platforms_only :
  map id PLATFORMS_META = ["paper"; "purpur"; "fabric"]
  /\ (forall today events r,
         let w := run today events initial in
         step w = Step3 ->
         matchedRelease w = Some r ->
         In (toLowerCase (platform r)) ["paper"; "purpur"; "fabric"])
  /\ (forall (Artifact : Type) (platform : Artifact -> string) items p,
         In p (FilterEngine.availablePlatforms Artifact platform items) <->
         exists r, In r items /\ platform r = p).
Proof.
  split; [reflexivity|]. split; [|apply availablePlatforms_In].
  intros today events r w Hstep Hmatched.
  assert (Hinv : platformInvariant w).
  { apply run_platformInvariant. unfold platformInvariant, initial. cbn.
    discriminate. }
  specialize (Hinv Hstep).
  apply find_some in Hmatched. destruct Hmatched as [_ Hmatch].
  apply andb_true_iff in Hmatch. destruct Hmatch as [_ Hplat].
  apply String.eqb_eq in Hplat. rewrite Hplat.
  change ["paper"; "purpur"; "fabric"]
    with (map toLowerCase (map id PLATFORMS_META)).
  now apply in_map.
Qed.

(** A run to step 3 on a catalog with a Paper artifact. *)
Lemma wizard_resolves_paper :
  In (toLowerCase "Paper") ["paper"; "purpur"; "fabric"].
Proof.
  pose (paper_1_20 :=
          {| version := "1.20"; platform := "Paper"; build_id := "40";
             size := None; file_size := "1048576"; releaseDate := None;
             release_date := None |}).
  apply (proj1 (proj2 wizard_resolves_fixed_platforms_only)
               "2025-01-01"
               [Open; FetchThen [paper_1_20]; ClickVersion 0;
                ClickPlatform 0]
               paper_1_20);
    reflexivity.
Defined.

(** A catalog with a Forge artifact: the browser lists the platform, the
    wizard has no button that resolves it. *)
Example forge_listed_by_browser_only :
  let release p :=
    {| Releases.version := "1.20"; Releases.platform := p;
       Releases.build_id := 1; Releases.changelog := "";
       Releases.filename := ""; Releases.file_size := 0;
       Releases.upload_timestamp := "" |} in
  Releases.availablePlatforms [release "paper"; release "forge"]
  = ["forge"; "paper"].
Proof. reflexivity. Qed.

(** C5, as the wizard does it.  The size of the resolved descriptor is the
    artifact's [size] when that is a non-empty string, else its [file_size]
    when that is non-empty, else the text ["0"]; and a size that does not
    parse as a number, like a size that parses as zero, is shown as
    ["0 Bytes"]. *)
Theorem download_size_fallback_is_zero
        (today : string) (w : State ApiRelease) (d : DownloadData.t) :
  getDownloadData today w = Some d ->
  exists data,
    matchedRelease w = Some data
    /\ (forall s, size data = Some s -> s <> "" -> DownloadData.size d = s)
    /\ (size data = None \/ size data = Some "" ->
        file_size data <> "" -> DownloadData.size d = file_size data)
    /\ (size data = None \/ size data = Some "" ->
        file_size data = "" ->
        DownloadData.size d = "0" /\ sizeLine d = Literal "0 Bytes")
    /\ (parseInt (DownloadData.size d) = None
        \/ parseInt (DownloadData.size d) = Some 0 ->
        sizeLine d = Literal "0 Bytes").
Proof.
  unfold getDownloadData.
  destruct (matchedRelease w) as [data|]; [|discriminate].
  intros [= <-]. exists data. split; [reflexivity|].
  unfold sizeLine. cbn [DownloadData.size]. unfold orElse.
  split; [|split; [|split]].
  - intros s -> Hs. destruct s; [congruence | reflexivity].
  - intros [-> | ->] Hfs; destruct (file_size data); cbn; congruence.
  - intros [-> | ->] ->; split; reflexivity.
  - intros [-> | ->]; reflexivity.
Qed.

(** An artifact without any size, resolved at step 3. *)
Lemma download_size_fallback_without_size :
  let data :=
    {| version := "1.20"; platform := "Paper"; build_id := "7";
       size := None; file_size := ""; releaseDate := None;
       release_date := None |} in
  let w :=
    {| isOpen := true; step := Step3; selectedVersion := "1.20";
       selectedPlatform := "paper"; releases := [data];
       isLoading := false; error := false; isDownloading := false |} in
  exists d,
    getDownloadData "2025-01-01" w = Some d
    /\ DownloadData.size d = "0"
    /\ sizeLine d = Literal "0 Bytes".
Proof.
  intros data w.
  destruct (getDownloadData "2025-01-01" w) as [d|] eqn:Hd;
    [|discriminate Hd].
  exists d. split; [reflexivity|].
  destruct (download_size_fallback_is_zero "2025-01-01" w d Hd)
    as (data' & Hmatched & _ & _ & Hnone & _).
  injection Hmatched as <-.
  apply Hnone; [left|]; reflexivity.
Defined.

(** C5 as stated fails: an absent size and a size that is no number are
    shown exactly like a size of zero bytes. *)
Lemma unknown_size_shown_as_zero_bytes :
  let artifact s fs :=
    {| version := "1.20"; platform := "Paper"; build_id := "7";
       size := s; file_size := fs; releaseDate := None;
       release_date := None |} in
  let confirm data :=
    option_map sizeLine
      (getDownloadData "2025-01-01"
         {| isOpen := true; step := Step3; selectedVersion := "1.20";
            selectedPlatform := "paper"; releases := [data];
            isLoading := false; error := false;
            isDownloading := false |}) in
  confirm (artifact None "") = Some (Literal "0 Bytes")
  /\ confirm (artifact None "unknown") = Some (Literal "0 Bytes")
  /\ confirm (artifact (Some "0") "0") = Some (Literal "0 Bytes")
  /\ confirm (artifact None "") = confirm (artifact (Some "0") "0").
Proof. repeat split. Qed.

(** ** The wizard's version list against the browsers' *)

(** A digit run after a run that is open is a number. *)
Lemma parseDigits_open s : forall n,
  allDigits s = true -> exists m, parseDigits (Some n) s = Some m.
Proof.
  induction s as [|c s IH]; intros n Hdigits; cbn.
  - now exists n.
  - cbn in Hdigits. apply andb_true_iff in Hdigits.
    destruct Hdigits as [Hc Hs]. rewrite Hc. now apply IH.
Qed.

Lemma isNumber_allDigits s : isNumber s = true -> allDigits s = true.
Proof.
  unfold isNumber. rewrite !andb_true_iff. now intros [[_ Hdigits] _].
Qed.

Lemma parseDigits_number s :
  isNumber s = true -> exists m, parseDigits None s = Some m.
Proof.
  intros Hnumber. pose proof (isNumber_allDigits s Hnumber) as Hdigits.
  destruct s as [|c s]; [discriminate|].
  cbn in Hdigits |- *. apply andb_true_iff in Hdigits.
  destruct Hdigits as [Hc Hs].
  rewrite Hc. now apply parseDigits_open.
Qed.

(** A number has no white space and no sign in front. *)
Lemma parseInt10_number s :
  isNumber s = true -> parseInt10 s = parseDigits None s.
Proof.
  intros Hnumber. pose proof (isNumber_allDigits s Hnumber) as Hdigits.
  destruct s as [|c s]; [discriminate|].
  cbn [allDigits] in Hdigits.
  apply andb_true_iff in Hdigits. destruct Hdigits as [Hc _].
  unfold parseInt10, parseSigned. cbn [skipWhiteSpace].
  destruct c as [[] [] [] [] [] [] [] []]; try discriminate Hc; reflexivity.
Qed.

Lemma closeRun_number s :
  isNumber s = true ->
  closeRun (parseDigits None s) = [Num (orZero (parseInt10 s))].
Proof.
  intros Hnumber. rewrite (parseInt10_number s Hnumber).
  destruct (parseDigits_number s Hnumber) as [m ->]. reflexivity.
Qed.

(** The collation elements of a string of digits and dots, segment by
    segment; [run] is the digit run that is open where the string starts. *)
Lemma elements_split s : forall run,
  forallb allDigits (split "." s) = true ->
  elements run s =
  match split "." s with
  | [] => []
  | first :: others =>
      (closeRun (parseDigits run first)
       ++ flat_map (fun seg => Chr "." :: closeRun (parseDigits None seg))
                   others)%list
  end.
Proof.
  induction s as [|c s IH]; intros run Hdigits.
  - cbn. now rewrite app_nil_r.
  - cbn [split] in Hdigits |- *.
    destruct (Ascii.eqb_spec c ".") as [->|Hdot].
    + cbn in Hdigits. specialize (IH None Hdigits).
      cbn [elements]. change (isDigit ".") with false. cbv iota.
      change (lowerChar ".") with "."%char.
      rewrite IH. cbn [parseDigits flat_map].
      destruct (split "." s) as [|first others] eqn:Hsplit;
        [now destruct (split_nonempty "." s)|].
      reflexivity.
    + destruct (split "." s) as [|first others] eqn:Hsplit;
        [now destruct (split_nonempty "." s)|].
      cbn in Hdigits. apply andb_true_iff in Hdigits.
      destruct Hdigits as [Hfirst Hothers].
      apply andb_true_iff in Hfirst. destruct Hfirst as [Hc Hfirst].
      cbn [elements parseDigits]. rewrite Hc.
      rewrite IH by (cbn; now rewrite Hfirst, Hothers).
      reflexivity.
Qed.

Lemma forallb_weaken {A : Type} (p q : A -> bool) l :
  (forall x, p x = true -> q x = true) ->
  forallb p l = true -> forallb q l = true.
Proof.
  intros Hpq. rewrite !forallb_forall. auto.
Qed.

Lemma flat_map_numbers segs :
  forallb isNumber segs = true ->
  flat_map (fun seg => Chr "." :: closeRun (parseDigits None seg)) segs
  = flat_map (fun m => [Chr "."; Num m])
             (map (fun p => orZero (parseInt10 p)) segs).
Proof.
  induction segs as [|seg segs IH]; cbn; [reflexivity|].
  intros Hnumbers. apply andb_true_iff in Hnumbers.
  destruct Hnumbers as [Hseg Hsegs].
  now rewrite closeRun_number, IH.
Qed.

Lemma elements_dotNumeric v :
  dotNumeric v = true -> elements None v = dotted (versionParts v).
Proof.
  unfold dotNumeric, versionParts. intros Hnumeric.
  rewrite elements_split
    by (eapply forallb_weaken; [apply isNumber_allDigits | exact Hnumeric]).
  destruct (split "." v) as [|first others];
    [reflexivity|].
  cbn in Hnumeric. apply andb_true_iff in Hnumeric.
  destruct Hnumeric as [Hfirst Hothers].
  cbn [map dotted].
  now rewrite closeRun_number, flat_map_numbers.
Qed.

Lemma compareFrom_shift steps : forall i x y p q,
  compareFrom steps (S i) (x :: p) (y :: q) = compareFrom steps i p q.
Proof.
  induction steps as [|steps IH]; intros i x y p q; [reflexivity|].
  rewrite !compareFrom_step. cbn [nth]. now rewrite IH.
Qed.

(** On segment lists of one length the collator and the loop of
    [compareVersions] compute the same number. *)
Lemma compareElements_dotted p : forall q,
  List.length p = List.length q ->
  compareElements (dotted p) (dotted q)
  = compareFrom (List.length p) 0 p q.
Proof.
  destruct p as [|x p]; intros [|y q] Hlen; try discriminate Hlen;
    [reflexivity|].
  injection Hlen as Hlen. revert x y q Hlen.
  induction p as [|x' p IH]; intros x y [|y' q] Hlen;
    try discriminate Hlen.
  - cbn [dotted flat_map compareElements compareElement List.length].
    rewrite compareFrom_step. cbn [nth compareFrom].
    destruct (x ?= y); reflexivity.
  - injection Hlen as Hlen. specialize (IH x' y' q Hlen).
    cbn [dotted flat_map app compareElements compareElement] in IH |- *.
    cbn [List.length]. rewrite compareFrom_step. cbn [nth].
    rewrite compareFrom_shift.
    destruct (x ?= y); cbn; try reflexivity.
    exact IH.
Qed.

Lemma localeCompareNumeric_compareVersions a b :
  dotNumeric a = true -> dotNumeric b = true ->
  List.length (split "." a) = List.length (split "." b) ->
  localeCompareNumeric a b = compareVersions a b.
Proof.
  intros Ha Hb Hlen.
  unfold localeCompareNumeric, compareVersions. cbv zeta.
  rewrite (elements_dotNumeric a Ha), (elements_dotNumeric b Hb).
  assert (Hparts : List.length (versionParts a)
                   = List.length (versionParts b))
    by (unfold versionParts; now rewrite !length_map).
  rewrite compareElements_dotted by exact Hparts.
  now rewrite <- Hparts, Nat.max_id.
Qed.

Lemma insertSorted_ext {A : Type} (f g : A -> A -> Z) x l :
  (forall y, In y l -> f x y = g x y) ->
  insertSorted f x l = insertSorted g x l.
Proof.
  induction l as [|y l IH]; intros Hsame; [reflexivity|].
  cbn. rewrite (Hsame y) by now left.
  destruct (g x y <=? 0); [reflexivity|].
  f_equal. apply IH. intros z Hz. apply Hsame. now right.
Qed.

(** Two comparators that agree on the elements of a list sort it alike. *)
Lemma sort_ext {A : Type} (f g : A -> A -> Z) l :
  (forall x y, In x l -> In y l -> f x y = g x y) ->
  sort f l = sort g l.
Proof.
  induction l as [|x l IH]; intros Hsame; [reflexivity|].
  cbn. rewrite IH by (intros y z Hy Hz; apply Hsame; now right).
  apply insertSorted_ext. intros y Hy.
  apply Hsame; [now left|]. right. now apply (sort_In g l y).
Qed.

(** *** The collator as an order on dot-numeric versions *)

(** Sorting a list on whose elements the comparator is a consistent
    ordering. *)
Section SortOn.
Context {A : Type}.
Variable compareFn : A -> A -> Z.
Variable domain : A -> Prop.

Hypothesis total_on :
  forall x y, domain x -> domain y ->
              0 < compareFn x y -> compareFn y x <= 0.
Hypothesis trans_on :
  forall x y z, domain x -> domain y -> domain z ->
                compareFn x y <= 0 -> compareFn y z <= 0 ->
                compareFn x z <= 0.

Lemma insertSorted_sorted_on x l :
  domain x -> Forall domain l ->
  StronglySorted (fun a b => compareFn a b <= 0) l ->
  StronglySorted (fun a b => compareFn a b <= 0)
                 (insertSorted compareFn x l).
Proof.
  intros Hx Hdomain Hsorted.
  induction Hsorted as [|y l Hsorted IH Hall]; cbn.
  - repeat constructor.
  - inversion Hdomain as [|? ? Hy Hl]; subst.
    destruct (Z.leb_spec (compareFn x y) 0) as [Hle|Hgt].
    + constructor; [now constructor|]. constructor; [exact Hle|].
      rewrite Forall_forall in Hall, Hl |- *. intros z Hz.
      apply (trans_on x y z); auto.
    + constructor; [now apply IH|].
      eapply Permutation_Forall; [symmetry; apply insertSorted_perm|].
      constructor; [now apply total_on | exact Hall].
Qed.

Lemma sort_sorted_on l :
  Forall domain l ->
  StronglySorted (fun a b => compareFn a b <= 0) (sort compareFn l).
Proof.
  induction 1 as [|x l Hx Hl IH]; cbn; [constructor|].
  apply insertSorted_sorted_on; [exact Hx | | exact IH].
  eapply Permutation_Forall; [symmetry; apply sort_perm | exact Hl].
Qed.

End SortOn.

Lemma compareElement_dot_order x y z :
  dotElement x = true -> dotElement y = true -> dotElement z = true ->
  compareElement x y = - compareElement y x
  /\ (compareElement x y <= 0 -> compareElement y z <= 0 ->
      compareElement x z <= 0
      /\ (compareElement x z = 0 ->
          compareElement x y = 0 /\ compareElement y z = 0)).
Proof.
  assert (Hdot_num : forall n, compareElement (Chr ".") (Num n) = -1)
    by reflexivity.
  assert (Hnum_dot : forall n, compareElement (Num n) (Chr ".") = 1)
    by reflexivity.
  assert (Hdot_dot : compareElement (Chr ".") (Chr ".") = 0)
    by reflexivity.
  assert (Hnum_num :
            forall n m, compareElement (Num n) (Num m) = sign (n ?= m))
    by reflexivity.
  intros Hx Hy Hz.
  destruct x as [a|c], y as [b|d], z as [e|f]; cbn in Hx, Hy, Hz;
    repeat match goal with
           | H : Ascii.eqb _ _ = true |- _ => apply Ascii.eqb_eq in H; subst
           end;
    rewrite ?Hdot_num, ?Hnum_dot, ?Hdot_dot, ?Hnum_num; unfold sign;
    repeat match goal with
           | |- context [Z.compare ?u ?v] => destruct (Z.compare_spec u v)
           end;
    (split; [lia | intros; split; [lia | intros; lia]]).
Qed.

Lemma compareElements_antisym xs : forall ys,
  Forall (fun x => dotElement x = true) xs ->
  Forall (fun x => dotElement x = true) ys ->
  compareElements xs ys = - compareElements ys xs.
Proof.
  induction xs as [|x xs IH]; intros [|y ys] Hxs Hys; try reflexivity.
  inversion Hxs as [|? ? Hx Hxs']; inversion Hys as [|? ? Hy Hys']; subst.
  cbn [compareElements].
  destruct (compareElement_dot_order x y x Hx Hy Hx) as [Hanti _].
  rewrite Hanti.
  destruct (Z.eqb_spec (compareElement y x) 0) as [H0|Hne].
  - rewrite H0. cbn. now apply IH.
  - destruct (Z.eqb_spec (- compareElement y x) 0); [lia | reflexivity].
Qed.

Lemma compareElements_trans xs : forall ys zs,
  Forall (fun x => dotElement x = true) xs ->
  Forall (fun x => dotElement x = true) ys ->
  Forall (fun x => dotElement x = true) zs ->
  compareElements xs ys <= 0 -> compareElements ys zs <= 0 ->
  compareElements xs zs <= 0.
Proof.
  induction xs as [|x xs IH]; intros [|y ys] [|z zs] Hxs Hys Hzs;
    cbn [compareElements]; try lia.
  inversion Hxs as [|? ? Hx Hxs']; inversion Hys as [|? ? Hy Hys'];
    inversion Hzs as [|? ? Hz Hzs']; subst.
  destruct (compareElement_dot_order x y z Hx Hy Hz) as [_ Horder].
  specialize (IH ys zs Hxs' Hys' Hzs').
  destruct (Z.eqb_spec (compareElement x y) 0);
    destruct (Z.eqb_spec (compareElement y z) 0);
    destruct (Z.eqb_spec (compareElement x z) 0);
    intros H1 H2; try lia;
    destruct Horder as [Hle Hzero]; lia.
Qed.

Lemma dotted_dotElements parts :
  Forall (fun x => dotElement x = true) (dotted parts).
Proof.
  destruct parts as [|n parts]; [constructor|].
  cbn [dotted]. constructor; [reflexivity|].
  induction parts as [|m parts IH]; cbn; repeat constructor. exact IH.
Qed.

(** On dot-numeric versions the wizard's comparator is a consistent
    ordering. *)
Lemma localeCompareNumeric_antisym a b :
  dotNumeric a = true -> dotNumeric b = true ->
  localeCompareNumeric a b = - localeCompareNumeric b a.
Proof.
  intros Ha Hb. unfold localeCompareNumeric.
  rewrite (elements_dotNumeric a Ha), (elements_dotNumeric b Hb).
  apply compareElements_antisym; apply dotted_dotElements.
Qed.

Lemma localeCompareNumeric_total a b :
  dotNumeric a = true -> dotNumeric b = true ->
  0 < localeCompareNumeric b a -> localeCompareNumeric a b <= 0.
Proof.
  intros Ha Hb. rewrite (localeCompareNumeric_antisym a b Ha Hb). lia.
Qed.

Lemma StronglySorted_weaken_on {A : Type} (domain : A -> Prop)
      (R S : A -> A -> Prop) l :
  (forall x y, domain x -> domain y -> R x y -> S x y) ->
  Forall domain l -> StronglySorted R l -> StronglySorted S l.
Proof.
  intros HRS Hdomain Hsorted.
  induction Hsorted as [|x l Hsorted IH Hall]; constructor;
    inversion Hdomain as [|? ? Hx Hl]; subst.
  - now apply IH.
  - rewrite Forall_forall in Hall, Hl |- *. intros y Hy.
    apply HRS; auto.
Qed.

Lemma localeCompareNumeric_trans a b c :
  dotNumeric a = true -> dotNumeric b = true -> dotNumeric c = true ->
  localeCompareNumeric a b <= 0 -> localeCompareNumeric b c <= 0 ->
  localeCompareNumeric a c <= 0.
Proof.
  intros Ha Hb Hc. unfold localeCompareNumeric.
  rewrite (elements_dotNumeric a Ha), (elements_dotNumeric b Hb),
    (elements_dotNumeric c Hc).
  apply compareElements_trans; apply dotted_dotElements.
Qed.

(** *** The collator against [compareVersions] *)

Lemma digitValue_nonneg c : isDigit c = true -> 0 <= digitValue c.
Proof.
  unfold isDigit, digitValue. cbv zeta. intros Hdigit.
  apply andb_true_iff in Hdigit. destruct Hdigit as [Hlow _].
  apply Nat.leb_le in Hlow. lia.
Qed.

Lemma parseDigits_nonneg s : forall acc m,
  (forall n, acc = Some n -> 0 <= n) ->
  parseDigits acc s = Some m -> 0 <= m.
Proof.
  induction s as [|c s IH]; intros acc m Hacc; cbn [parseDigits].
  - apply Hacc.
  - destruct (isDigit c) eqn:Hc; [|apply Hacc].
    apply IH. intros n Hn.
    pose proof (digitValue_nonneg c Hc) as Hvalue.
    assert (Hnext : 0 <= 10 * orZero acc + digitValue c).
    { destruct acc as [k|]; [specialize (Hacc k eq_refl)|];
        unfold orZero; lia. }
    injection Hn as Hn. rewrite <- Hn. exact Hnext.
Qed.

Lemma versionParts_nonneg v :
  dotNumeric v = true -> Forall (fun m => 0 <= m) (versionParts v).
Proof.
  unfold dotNumeric, versionParts. intros Hnumeric.
  apply Forall_forall. intros m Hm. apply in_map_iff in Hm.
  destruct Hm as (seg & <- & Hseg).
  rewrite forallb_forall in Hnumeric.
  rewrite (parseInt10_number seg (Hnumeric seg Hseg)).
  destruct (parseDigits None seg) as [k|] eqn:Hk; cbn; [|lia].
  apply (parseDigits_nonneg seg None k); [discriminate | exact Hk].
Qed.

Lemma nth_nonneg i l : Forall (fun m => 0 <= m) l -> 0 <= nth i l 0.
Proof.
  intros Hall. destruct (nth_in_or_default i l 0) as [Hin | ->]; [|lia].
  rewrite Forall_forall in Hall. now apply Hall.
Qed.

(** Against nothing but missing segments, numbers that are not negative
    compare as equal or higher. *)
Lemma compareFrom_nil_l steps : forall i q,
  Forall (fun m => 0 <= m) q -> compareFrom steps i [] q <= 0.
Proof.
  induction steps as [|steps IH]; intros i q Hq; [cbn; lia|].
  rewrite compareFrom_step.
  pose proof (nth_nonneg i q Hq).
  rewrite (nth_overflow [] 0) by (cbn; lia).
  destruct (Z.compare_spec 0 (nth i q 0)); [now apply IH | lia | lia].
Qed.

Lemma compareFrom_nil_r steps : forall i p,
  Forall (fun m => 0 <= m) p -> 0 <= compareFrom steps i p [].
Proof.
  intros i p Hp. rewrite compareFrom_antisym.
  pose proof (compareFrom_nil_l steps i p Hp). lia.
Qed.

(** The segments after the first, each behind its ['.']. *)
Lemma compareElements_tails p : forall q,
  Forall (fun m => 0 <= m) p -> Forall (fun m => 0 <= m) q ->
  compareElements (flat_map (fun m => [Chr "."; Num m]) p)
                  (flat_map (fun m => [Chr "."; Num m]) q)
  = if compareFrom (Nat.max (List.length p) (List.length q)) 0 p q =? 0
    then sign (Nat.compare (List.length p) (List.length q))
    else compareFrom (Nat.max (List.length p) (List.length q)) 0 p q.
Proof.
  induction p as [|x p IH]; intros [|y q] Hp Hq.
  - reflexivity.
  - change (compareElements _ _) with (-1).
    change (Nat.max (List.length (@nil Z)) (List.length (y :: q)))
      with (S (List.length q)).
    change (sign (Nat.compare (List.length (@nil Z))
                              (List.length (y :: q)))) with (-1).
    pose proof (compareFrom_nil_l (S (List.length q)) 0 (y :: q) Hq) as Hle.
    destruct (compareFrom_range (S (List.length q)) 0 [] (y :: q))
      as [Hc|[Hc|Hc]]; rewrite Hc in Hle |- *; try reflexivity; lia.
  - change (compareElements _ _) with 1.
    change (Nat.max (List.length (x :: p)) (List.length (@nil Z)))
      with (S (List.length p)).
    change (sign (Nat.compare (List.length (x :: p))
                              (List.length (@nil Z)))) with 1.
    pose proof (compareFrom_nil_r (S (List.length p)) 0 (x :: p) Hp) as Hle.
    destruct (compareFrom_range (S (List.length p)) 0 (x :: p) [])
      as [Hc|[Hc|Hc]]; rewrite Hc in Hle |- *; try reflexivity; lia.
  - inversion Hp as [|? ? _ Hp']; inversion Hq as [|? ? _ Hq']; subst.
    specialize (IH q Hp' Hq').
    change (compareElements
              (flat_map (fun m => [Chr "."; Num m]) (x :: p))
              (flat_map (fun m => [Chr "."; Num m]) (y :: q)))
      with (if sign (x ?= y) =? 0
            then compareElements
                   (flat_map (fun m => [Chr "."; Num m]) p)
                   (flat_map (fun m => [Chr "."; Num m]) q)
            else sign (x ?= y)).
    change (Nat.max (List.length (x :: p)) (List.length (y :: q)))
      with (S (Nat.max (List.length p) (List.length q))).
    change (Nat.compare (List.length (x :: p)) (List.length (y :: q)))
      with (Nat.compare (List.length p) (List.length q)).
    rewrite compareFrom_step. cbn [nth]. rewrite compareFrom_shift.
    destruct (x ?= y); cbn [sign]; [exact IH | reflexivity | reflexivity].
Qed.

Lemma compareElements_dotted_segments p q :
  p <> [] -> q <> [] ->
  Forall (fun m => 0 <= m) p -> Forall (fun m => 0 <= m) q ->
  compareElements (dotted p) (dotted q)
  = if compareFrom (Nat.max (List.length p) (List.length q)) 0 p q =? 0
    then sign (Nat.compare (List.length p) (List.length q))
    else compareFrom (Nat.max (List.length p) (List.length q)) 0 p q.
Proof.
  destruct p as [|x p]; [congruence|]. destruct q as [|y q]; [congruence|].
  intros _ _ Hp Hq.
  inversion Hp as [|? ? _ Hp']; inversion Hq as [|? ? _ Hq']; subst.
  pose proof (compareElements_tails p q Hp' Hq') as Htails.
  change (compareElements (dotted (x :: p)) (dotted (y :: q)))
    with (if sign (x ?= y) =? 0
          then compareElements
                 (flat_map (fun m => [Chr "."; Num m]) p)
                 (flat_map (fun m => [Chr "."; Num m]) q)
          else sign (x ?= y)).
  change (Nat.max (List.length (x :: p)) (List.length (y :: q)))
    with (S (Nat.max (List.length p) (List.length q))).
  change (Nat.compare (List.length (x :: p)) (List.length (y :: q)))
    with (Nat.compare (List.length p) (List.length q)).
  rewrite compareFrom_step. cbn [nth]. rewrite compareFrom_shift.
  destruct (x ?= y); cbn [sign]; [exact Htails | reflexivity | reflexivity].
Qed.

(** The wizard's comparator on dot-numeric versions, in terms of
    [compareVersions]: the same result, except that versions which
    [compareVersions] takes for equal are told apart by their number of
    segments. *)
Lemma localeCompareNumeric_by_compareVersions a b :
  dotNumeric a = true -> dotNumeric b = true ->
  localeCompareNumeric a b
  = if compareVersions a b =? 0
    then sign (Nat.compare (List.length (split "." a))
                           (List.length (split "." b)))
    else compareVersions a b.
Proof.
  intros Ha Hb. unfold localeCompareNumeric, compareVersions. cbv zeta.
  rewrite (elements_dotNumeric a Ha), (elements_dotNumeric b Hb).
  rewrite compareElements_dotted_segments;
    try (now apply versionParts_nonneg);
    try (unfold versionParts; intros Hnil; apply map_eq_nil in Hnil;
         now apply split_nonempty in Hnil).
  unfold versionParts. now rewrite !length_map.
Qed.

(** C4, as the wizard does it.  The wizard's version list holds the same
    distinct versions as the browsers' [availableVersions].  On a catalog
    of dot-numeric versions (segments that are non-empty runs of at most
    fifteen digits) it is sorted descending by the locale-aware numeric
    comparison of the strings.  On dot-numeric versions that comparison
    returns what [compareVersions] returns, except where
    [compareVersions] returns 0 for versions with different numbers of
    segments: there the version with more segments is the higher one.
    When no two versions of the catalog are such a pair, the two lists
    are equal. *)
Theorem wizard_versions_against_browsers :
  (forall (Artifact : Type) (itemVersion : Artifact -> string)
          (releases : list ApiRelease) (items : list Artifact),
      map version releases = map itemVersion items ->
      Permutation (uniqueVersions releases)
                  (FilterEngine.availableVersions Artifact itemVersion items)
      /\ ((forall v, In v (map version releases) -> dotNumeric v = true) ->
          StronglySorted (fun a b => 0 <= localeCompareNumeric a b)
                         (uniqueVersions releases)
          /\ ((forall v v', In v (map version releases) ->
                            In v' (map version releases) ->
                            compareVersions v v' = 0 ->
                            List.length (split "." v)
                            = List.length (split "." v')) ->
              uniqueVersions releases
              = FilterEngine.availableVersions Artifact itemVersion items)))
  /\ (forall a b,
         dotNumeric a = true -> dotNumeric b = true ->
         localeCompareNumeric a b
         = if compareVersions a b =? 0
           then sign (Nat.compare (List.length (split "." a))
                                  (List.length (split "." b)))
           else compareVersions a b).
Proof.
  split; [|apply localeCompareNumeric_by_compareVersions].
  intros Artifact itemVersion releases items Hversions.
  unfold uniqueVersions, FilterEngine.availableVersions. cbv zeta.
  rewrite <- Hversions. split; [|intros Hnumeric; split].
  - rewrite !sort_perm. reflexivity.
  - assert (Hdistinct :
              Forall (fun v => dotNumeric v = true)
                     (distinct (map version releases))).
    { apply Forall_forall. intros v Hv. apply Hnumeric.
      now apply distinct_In. }
    apply (StronglySorted_weaken_on
             (fun v => dotNumeric v = true)
             (fun a b => localeCompareNumeric b a <= 0)).
    + intros a b Ha Hb Hab.
      rewrite (localeCompareNumeric_antisym a b Ha Hb). lia.
    + eapply Permutation_Forall; [symmetry; apply sort_perm|].
      exact Hdistinct.
    + apply (sort_sorted_on (fun a b => localeCompareNumeric b a)
                            (fun v => dotNumeric v = true)).
      * intros a b Ha Hb. now apply localeCompareNumeric_total.
      * intros a b c Ha Hb Hc Hab Hbc.
        now apply (localeCompareNumeric_trans c b a).
      * exact Hdistinct.
  - intros Hlength. apply sort_ext.
    intros a b Ha Hb. rewrite distinct_In in Ha, Hb.
    rewrite localeCompareNumeric_by_compareVersions
      by (now apply Hnumeric).
    destruct (Z.eqb_spec (compareVersions b a) 0) as [Hzero|Hne];
      [|reflexivity].
    rewrite (Hlength b a Hb Ha Hzero), Nat.compare_refl, Hzero.
    reflexivity.
Qed.

(** A release and its first patch: the segment counts differ, the two
    comparators agree. *)
Lemma wizard_versions_agree_on_patch_release :
  localeCompareNumeric "1.20" "1.20.1" = compareVersions "1.20" "1.20.1".
Proof.
  exact (proj2 wizard_versions_against_browsers "1.20" "1.20.1"
               eq_refl eq_refl).
Defined.

Example wizard_versions_with_patch_releases :
  let release v :=
    {| version := v; platform := "paper"; build_id := "1"; size := None;
       file_size := "1"; releaseDate := None; release_date := None |} in
  let item v :=
    {| Releases.version := v; Releases.platform := "paper";
       Releases.build_id := 1; Releases.changelog := "";
       Releases.filename := ""; Releases.file_size := 1;
       Releases.upload_timestamp := "" |} in
  uniqueVersions [release "1.20"; release "1.21"; release "1.20.1"]
  = ["1.21"; "1.20.1"; "1.20"]
  /\ Releases.availableVersions [item "1.20"; item "1.21"; item "1.20.1"]
     = ["1.21"; "1.20.1"; "1.20"].
Proof. split; reflexivity. Qed.

(** C4 as stated fails: ["2.0"] and ["2.0.0"] are equal for
    [compareVersions] and apart for the wizard's comparison, and the two
    pages list them in opposite orders. *)
Lemma wizard_orders_trailing_zero_apart :
  let release v :=
    {| version := v; platform := "paper"; build_id := "1"; size := None;
       file_size := "1"; releaseDate := None; release_date := None |} in
  let item v :=
    {| Releases.version := v; Releases.platform := "paper";
       Releases.build_id := 1; Releases.changelog := "";
       Releases.filename := ""; Releases.file_size := 1;
       Releases.upload_timestamp := "" |} in
  compareVersions "2.0" "2.0.0" = 0
  /\ localeCompareNumeric "2.0" "2.0.0" = -1
  /\ uniqueVersions [release "2.0"; release "2.0.0"] = ["2.0.0"; "2.0"]
  /\ Releases.availableVersions [item "2.0"; item "2.0.0"]
     = ["2.0"; "2.0.0"].
Proof. repeat split. Qed.

Example wizard_versions_equal_segments :
  let release v :=
    {| version := v; platform := "paper"; build_id := "1"; size := None;
       file_size := "1"; releaseDate := None; release_date := None |} in
  uniqueVersions [release "1.9.9"; release "1.10.0"; release "1.9.9"]
  = ["1.10.0"; "1.9.9"].
Proof. reflexivity. Qed.


(** * Further properties of the pages *)

(** ** Filtering and sorting commute *)

Section FilterSort.
Context {A : Type}.
Variable compareFn : A -> A -> Z.
Variable keep : A -> bool.

Hypothesis compareFn_total :
  forall x y, 0 < compareFn x y -> compareFn y x <= 0.
Hypothesis compareFn_trans :
  forall x y z, compareFn x y <= 0 -> compareFn y z <= 0 ->
                compareFn x z <= 0.

Lemma insertSorted_front x l :
  Forall (fun z => compareFn x z <= 0) l ->
  insertSorted compareFn x l = x :: l.
Proof.
  destruct l as [|y l]; [reflexivity|].
  intros Hall. cbn. apply Forall_inv in Hall.
  destruct (Z.leb_spec (compareFn x y) 0); [reflexivity | lia].
Qed.

Lemma filter_insertSorted_dropped x l :
  keep x = false ->
  filter keep (insertSorted compareFn x l) = filter keep l.
Proof.
  intros Hx. induction l as [|y l IH]; cbn; [now rewrite Hx|].
  destruct (compareFn x y <=? 0); cbn; [now rewrite Hx|].
  now rewrite IH.
Qed.

Lemma filter_insertSorted_kept x l :
  StronglySorted (fun a b => compareFn a b <= 0) l ->
  keep x = true ->
  filter keep (insertSorted compareFn x l)
  = insertSorted compareFn x (filter keep l).
Proof.
  intros Hsorted Hx.
  induction Hsorted as [|y l Hsorted IH Hall]; cbn; [now rewrite Hx|].
  destruct (Z.leb_spec (compareFn x y) 0) as [Hle|Hgt]; cbn.
  - rewrite Hx. destruct (keep y); cbn.
    + destruct (Z.leb_spec (compareFn x y) 0); [reflexivity | lia].
    + symmetry. apply insertSorted_front.
      apply Forall_forall. intros z Hz. apply filter_In in Hz.
      destruct Hz as [Hz _].
      rewrite Forall_forall in Hall.
      eapply compareFn_trans; [exact Hle | now apply Hall].
  - destruct (keep y); cbn.
    + destruct (Z.leb_spec (compareFn x y) 0); [lia|]. now rewrite IH.
    + exact IH.
Qed.

Lemma filter_sort l :
  filter keep (sort compareFn l) = sort compareFn (filter keep l).
Proof.
  induction l as [|x l IH]; [reflexivity|].
  cbn [sort filter]. destruct (keep x) eqn:Hx.
  - rewrite filter_insertSorted_kept, IH; [reflexivity | | exact Hx].
    now apply sort_sorted.
  - now rewrite filter_insertSorted_dropped.
Qed.

End FilterSort.

Lemma passes_split (Artifact : Type) (version platform : Artifact -> string)
      selectedVersion selectedPlatform r :
  FilterEngine.passes Artifact version platform
                      selectedVersion selectedPlatform r
  = FilterEngine.passes Artifact version platform selectedVersion "" r
    && FilterEngine.passes Artifact version platform "" selectedPlatform r.
Proof.
  unfold FilterEngine.passes. cbn.
  now rewrite andb_true_r.
Qed.

(** X2.  Filtering hides cards and does not reorder the others: the
    visible list under a version and a platform filter is the visible list
    of the whole catalog restricted to the matching artifacts, and setting
    a platform filter restricts the list shown for the version alone. *)
Theorem visible_is_restriction_of_unfiltered
        (Artifact : Type) (version platform : Artifact -> string)
        (build_id : Artifact -> Z) (items : list Artifact)
        (selectedVersion selectedPlatform : string) :
  let visible := FilterEngine.processed Artifact version platform build_id in
  visible items selectedVersion selectedPlatform
  = filter (FilterEngine.passes Artifact version platform
                                selectedVersion selectedPlatform)
           (visible items "" "")
  /\ visible items selectedVersion selectedPlatform
     = filter (fun r => negb (JsString.truthy selectedPlatform)
                        || String.eqb (platform r) selectedPlatform)
              (visible items selectedVersion "").
Proof.
  intros visible. subst visible.
  rewrite !processed_as_filter.
  rewrite !filter_sort
    by (intros; first [ now apply byVersionThenBuild_total
                      | eapply byVersionThenBuild_trans; eassumption ]).
  split; f_equal; rewrite filter_filter; apply filter_ext; intros r.
  - reflexivity.
  - rewrite (passes_split Artifact version platform
                          selectedVersion selectedPlatform r).
    unfold FilterEngine.passes. cbn. now rewrite andb_true_r.
Qed.

(** ** The lists of versions and platforms *)

Lemma distinct_NoDup l : NoDup (distinct l).
Proof.
  induction l as [|x l IH]; cbn; constructor.
  - rewrite filter_In, String.eqb_refl. now intros [_ Hfalse].
  - now apply NoDup_filter.
Qed.

Lemma sort_NoDup {A : Type} (compareFn : A -> A -> Z) l :
  NoDup l -> NoDup (sort compareFn l).
Proof.
  apply Permutation_NoDup. symmetry. apply sort_perm.
Qed.

Lemma ascii_compare_trans a b c :
  Ascii.compare a b = Lt -> Ascii.compare b c = Lt -> Ascii.compare a c = Lt.
Proof.
  unfold Ascii.compare. rewrite !N.compare_lt_iff. apply N.lt_trans.
Qed.

Lemma string_compare_lt_trans a : forall b c,
  String.compare a b = Lt -> String.compare b c = Lt ->
  String.compare a c = Lt.
Proof.
  induction a as [|x a IH]; intros [|y b] [|z c]; cbn;
    try discriminate; try reflexivity.
  destruct (Ascii.compare x y) eqn:Hxy; try discriminate;
    destruct (Ascii.compare y z) eqn:Hyz; try discriminate; intros Hab Hbc.
  - apply Ascii.compare_eq_iff in Hxy, Hyz. subst.
    rewrite (proj2 (N.compare_eq_iff _ _) eq_refl
             : Ascii.compare z z = Eq).
    eapply IH; eassumption.
  - apply Ascii.compare_eq_iff in Hxy. subst. now rewrite Hyz.
  - apply Ascii.compare_eq_iff in Hyz. subst. now rewrite Hxy.
  - now rewrite (ascii_compare_trans x y z Hxy Hyz).
Qed.

Lemma compareCodeUnits_total a b :
  0 < compareCodeUnits a b -> compareCodeUnits b a <= 0.
Proof.
  unfold compareCodeUnits. rewrite (String.compare_antisym a b).
  destruct (String.compare b a); cbn; lia.
Qed.

Lemma compareCodeUnits_trans a b c :
  compareCodeUnits a b <= 0 -> compareCodeUnits b c <= 0 ->
  compareCodeUnits a c <= 0.
Proof.
  unfold compareCodeUnits.
  destruct (String.compare a b) eqn:Hab; try lia;
    destruct (String.compare b c) eqn:Hbc; try lia; intros _ _.
  - apply String.compare_eq_iff in Hab. subst. now rewrite Hbc.
  - apply String.compare_eq_iff in Hab. subst. now rewrite Hbc.
  - apply String.compare_eq_iff in Hbc. subst. now rewrite Hab.
  - now rewrite (string_compare_lt_trans a b c Hab Hbc).
Qed.

(** In a list without repetition that is sorted, different positions
    hold different elements: the order is strict. *)
Lemma StronglySorted_strict {A : Type} (R S : A -> A -> Prop) l :
  (forall x y, R x y -> x <> y -> S x y) ->
  NoDup l -> StronglySorted R l -> StronglySorted S l.
Proof.
  intros HRS Hnodup Hsorted.
  induction Hsorted as [|x l Hsorted IH Hall]; constructor.
  - apply IH. now inversion Hnodup.
  - inversion Hnodup as [|? ? Hnotin _]; subst.
    rewrite Forall_forall in Hall |- *. intros y Hy.
    apply HRS; [now apply Hall|]. intros ->. contradiction.
Qed.

Lemma availableVersions_In (Artifact : Type) (version : Artifact -> string)
      items v :
  In v (FilterEngine.availableVersions Artifact version items) <->
  exists r, In r items /\ version r = v.
Proof.
  unfold FilterEngine.availableVersions. cbv zeta.
  rewrite sort_In, distinct_In, in_map_iff.
  split; intros (r & H1 & H2); exists r; auto.
Qed.

(** X3.  The version buttons of a catalog browser: every version of the
    catalog, each string once, from the highest version down; the
    wizard's list of step 1 also holds every version of its catalog
    once. *)
Theorem version_lists_complete_without_repetition :
  (forall (Artifact : Type) (version : Artifact -> string) items,
      let versions :=
        FilterEngine.availableVersions Artifact version items in
      NoDup versions
      /\ (forall v, In v versions <-> exists r, In r items /\ version r = v)
      /\ StronglySorted (fun a b => 0 <= compareVersions a b) versions)
  /\ (forall releases,
         NoDup (DownloadModal.uniqueVersions releases)
         /\ (forall v, In v (DownloadModal.uniqueVersions releases) <->
                       exists r, In r releases
                                 /\ DownloadModal.version r = v)).
Proof.
  split.
  - intros Artifact version items versions. subst versions.
    split; [|split; [apply availableVersions_In|]].
    + apply sort_NoDup, distinct_NoDup.
    + unfold FilterEngine.availableVersions. cbv zeta.
      eapply StronglySorted_weaken;
        [|apply (sort_sorted (fun a b => compareVersions b a))].
      * intros a b Hab. cbn in Hab.
        rewrite (compareVersions_antisym a b). lia.
      * intros a b Hab. rewrite (compareVersions_antisym a b). lia.
      * intros a b c Hab Hbc.
        pose proof (compareVersions_trans c b a).
        lia.
  - intros releases. unfold DownloadModal.uniqueVersions. cbv zeta. split.
    + apply sort_NoDup, distinct_NoDup.
    + intros v. rewrite sort_In, distinct_In, in_map_iff.
      split; intros (r & H1 & H2); exists r; auto.
Qed.

(** X4.  The platform buttons of a catalog browser: each platform of
    the catalog once, in strictly ascending order of the strings' code
    units. *)
Theorem platform_list_strictly_ascending
        (Artifact : Type) (platform : Artifact -> string)
        (items : list Artifact) :
  let platforms := FilterEngine.availablePlatforms Artifact platform items in
  NoDup platforms
  /\ StronglySorted (fun a b => String.compare a b = Lt) platforms.
Proof.
  intros platforms.
  assert (Hnodup : NoDup platforms)
    by apply sort_NoDup, distinct_NoDup.
  split; [exact Hnodup|].
  eapply StronglySorted_strict;
    [|exact Hnodup
     |apply (sort_sorted compareCodeUnits compareCodeUnits_total
                         compareCodeUnits_trans)].
  intros a b Hle Hne. unfold compareCodeUnits in Hle.
  destruct (String.compare a b) eqn:Hab; [|reflexivity|lia].
  apply String.compare_eq_iff in Hab. contradiction.
Qed.

(** ** The expanded changelogs *)

Lemma has_delete x y s :
  JsSet.has x (JsSet.delete y s) = JsSet.has x s && negb (Z.eqb y x).
Proof.
  unfold JsSet.has, JsSet.delete.
  induction s as [|z s IH]; cbn; [reflexivity|].
  destruct (Z.eqb_spec y z) as [->|Hyz]; cbn.
  - rewrite IH. destruct (Z.eqb_spec x z) as [->|Hxz]; cbn.
    + rewrite Z.eqb_refl. cbn. now rewrite andb_false_r.
    + reflexivity.
  - rewrite IH. destruct (Z.eqb_spec x z) as [->|Hxz]; cbn.
    + destruct (Z.eqb_spec y z); [contradiction | reflexivity].
    + reflexivity.
Qed.

Lemma has_add x y s :
  JsSet.has x (JsSet.add y s) = JsSet.has x s || Z.eqb y x.
Proof.
  unfold JsSet.add.
  destruct (JsSet.has y s) eqn:Hy.
  - destruct (Z.eqb_spec y x) as [->|Hne];
      [now rewrite Hy | now rewrite orb_false_r].
  - unfold JsSet.has. rewrite existsb_app. cbn.
    now rewrite orb_false_r, (Z.eqb_sym x y).
Qed.

Lemma has_toggleChangelog x y s :
  JsSet.has x (ReleasesView.toggleChangelog y s)
  = if Z.eqb y x then negb (JsSet.has y s) else JsSet.has x s.
Proof.
  unfold ReleasesView.toggleChangelog. cbv zeta.
  destruct (JsSet.has y s) eqn:Hy.
  - rewrite has_delete. destruct (Z.eqb_spec y x) as [->|Hne]; cbn.
    + now rewrite andb_false_r.
    + now rewrite andb_true_r.
  - rewrite has_add. destruct (Z.eqb_spec y x) as [->|Hne]; cbn.
    + now rewrite orb_true_r.
    + now rewrite orb_false_r.
Qed.

Lemma has_In x s : JsSet.has x s = true <-> In x s.
Proof.
  unfold JsSet.has. rewrite existsb_exists. split.
  - intros (y & Hin & Heq). apply Z.eqb_eq in Heq. now subst.
  - intros Hin. exists x. split; [exact Hin | apply Z.eqb_refl].
Qed.

(** X5.  The Show/Hide button of a card flips that card and every card
    with the same build id, and no other card; a second click restores
    every card; the set never holds a build id twice. *)
Theorem toggleChangelog_flips_one_build
        (clicked : Releases.Release) (expandedReleases : list Z) :
  let after :=
    ReleasesView.toggleChangelog (Releases.build_id clicked)
                                 expandedReleases in
  (forall card,
      ReleasesView.isExpanded after card
      = if Z.eqb (Releases.build_id clicked) (Releases.build_id card)
        then negb (ReleasesView.isExpanded expandedReleases card)
        else ReleasesView.isExpanded expandedReleases card)
  /\ (forall card,
         ReleasesView.isExpanded
           (ReleasesView.toggleChangelog (Releases.build_id clicked) after)
           card
         = ReleasesView.isExpanded expandedReleases card)
  /\ (NoDup expandedReleases -> NoDup after).
Proof.
  intros after. subst after. unfold ReleasesView.isExpanded.
  split; [|split].
  - intros card. rewrite has_toggleChangelog.
    destruct (Z.eqb_spec (Releases.build_id clicked)
                         (Releases.build_id card)) as [->|Hne];
      reflexivity.
  - intros card. rewrite !has_toggleChangelog, Z.eqb_refl.
    destruct (Z.eqb_spec (Releases.build_id clicked)
                         (Releases.build_id card)) as [<-|Hne];
      [apply negb_involutive | reflexivity].
  - intros Hnodup. unfold ReleasesView.toggleChangelog. cbv zeta.
    destruct (JsSet.has (Releases.build_id clicked) expandedReleases)
      eqn:Hhas.
    + now apply NoDup_filter.
    + unfold JsSet.add. rewrite Hhas.
      apply NoDup_app; [exact Hnodup | repeat constructor; intros [] |].
      intros x Hx [<-|[]].
      apply has_In in Hx. congruence.
Qed.

(** Two platforms of build 7, build 9 expanded: the click on one card of
    build 7 expands both and leaves the set without repetition. *)
Lemma toggleChangelog_flips_build_seven :
  NoDup (ReleasesView.toggleChangelog 7 [9]).
Proof.
  apply (proj2 (proj2 (toggleChangelog_flips_one_build
                         {| Releases.version := "1.20";
                            Releases.platform := "paper";
                            Releases.build_id := 7;
                            Releases.changelog := "";
                            Releases.filename := "";
                            Releases.file_size := 0;
                            Releases.upload_timestamp := "" |}
                         [9]))).
  repeat constructor; intros [].
Defined.

(** ** Fetch cycles one after the other, and overlapping *)

(** X6.  A fetch cycle of a catalog browser leaves nothing of the state
    before it: the state after the cycle depends on the outcome alone, a
    list is shown only without an error message, and an error message
    only with the empty list. *)
Theorem fetch_cycle_replaces_state
        (prefix fallback : string) (normalize : json -> attempt (list json))
        (outcome : fetchOutcome) (st st' : CatalogStore.State) :
  let fetch := CatalogStore.fetchCycle prefix fallback normalize in
  fetch outcome st = fetch outcome st'
  /\ (CatalogStore.error (fetch outcome st) = None
      \/ CatalogStore.items (fetch outcome st) = [])
  /\ (forall data,
         CatalogStore.tryBlock prefix normalize outcome = inr data ->
         fetch outcome st
         = {| CatalogStore.items := data; CatalogStore.loading := false;
              CatalogStore.error := None |}).
Proof.
  intros fetch. subst fetch.
  unfold CatalogStore.fetchCycle, CatalogStore.afterRequest.
  destruct (CatalogStore.tryBlock prefix normalize outcome) as [reason|data];
    cbn.
  - split; [reflexivity|]. split; [now right | discriminate].
  - split; [reflexivity|]. split; [now left|].
    now intros data' [= ->].
Qed.

(** X7.  Two requests in flight, the route having changed before the
    first one ended.  When the older request fails and the newer one then
    succeeds, the list of the newer one is shown under the error message
    of the older one, and the loading flag drops while the newer request
    is still running; when the newer one succeeds first, the failure of
    the older one empties its list. *)
Theorem overlapping_fetches_mix_outcomes
        (prefix fallback : string) (normalize : json -> attempt (list json))
        (older newer : fetchOutcome) (reason : thrown) (data : list json)
        (st : CatalogStore.State) :
  CatalogStore.tryBlock prefix normalize older = inl reason ->
  CatalogStore.tryBlock prefix normalize newer = inr data ->
  let message :=
    match reason with
    | ErrorObject message => message
    | OtherThrown => fallback
    end in
  let finish := CatalogStore.afterRequest prefix fallback normalize in
  let started :=
    CatalogStore.beforeRequest (CatalogStore.beforeRequest st) in
  CatalogStore.loading (finish older started) = false
  /\ finish newer (finish older started)
     = {| CatalogStore.items := data; CatalogStore.loading := false;
          CatalogStore.error := Some message |}
  /\ finish older (finish newer started)
     = {| CatalogStore.items := []; CatalogStore.loading := false;
          CatalogStore.error := Some message |}.
Proof.
  intros Holder Hnewer message finish started.
  subst message finish started. unfold CatalogStore.afterRequest.
  rewrite Holder, Hnewer. repeat split.
Qed.

(** Version 1.19 answers 500, then version 1.20 answers with one
    release. *)
Lemma overlapping_fetches_500_then_list :
  let release := JObject [("version", JString "1.20")] in
  let finish :=
    CatalogStore.afterRequest "Failed to fetch releases: "
                              "Failed to load releases"
                              CatalogStore.releasesData in
  let started :=
    CatalogStore.beforeRequest
      (CatalogStore.beforeRequest
         {| CatalogStore.items := []; CatalogStore.loading := true;
            CatalogStore.error := None |}) in
  finish (Responded true "OK"
                    (inr (JObject [("data", JArray [release])])))
         (finish (Responded false "Internal Server Error" (inl OtherThrown))
                 started)
  = {| CatalogStore.items := [release]; CatalogStore.loading := false;
       CatalogStore.error :=
         Some "Failed to fetch releases: Internal Server Error" |}.
Proof.
  intros release finish started.
  apply (overlapping_fetches_mix_outcomes
           "Failed to fetch releases: " "Failed to load releases"
           CatalogStore.releasesData
           (Responded false "Internal Server Error" (inl OtherThrown))
           (Responded true "OK" (inr (JObject [("data", JArray [release])])))
           (ErrorObject "Failed to fetch releases: Internal Server Error")
           [release]);
    reflexivity.
Defined.

(** ** The empty state *)

Lemma processed_unfiltered_nil (Artifact : Type)
      (version platform : Artifact -> string) (build_id : Artifact -> Z)
      items :
  FilterEngine.processed Artifact version platform build_id items "" "" = []
  -> items = [].
Proof.
  intros Hnil.
  pose proof (processed_perm Artifact version platform build_id items "" "")
    as Hperm.
  rewrite Hnil in Hperm. apply Permutation_nil in Hperm.
  unfold FilterEngine.passes in Hperm. cbn in Hperm.
  now rewrite filter_all in Hperm.
Qed.

Lemma truthy_false s : JsString.truthy s = false -> s = "".
Proof. destruct s; [reflexivity | discriminate]. Qed.

(** X8.  The hint of the empty state.  On the dev-builds page a catalog
    that has builds and shows none has a filter set, and the hint asks to
    adjust the filters; with no filter set an empty list means an empty
    catalog.  On the releases page the hint looks at the version filter
    only: when the platform filter alone hides every release of a
    catalog, the hint is the one of an empty catalog. *)
Theorem empty_state_hint_follows_filters :
  (forall builds selectedVersion selectedPlatform,
      builds <> [] ->
      DevBuilds.processedBuilds builds selectedVersion selectedPlatform = []
      -> DevBuildsView.emptyHint selectedVersion selectedPlatform
         = "Try adjusting your version or platform filters")
  /\ (forall builds,
         DevBuilds.processedBuilds builds "" "" = [] ->
         builds = []
         /\ DevBuildsView.emptyHint "" ""
            = "Check back later for new development builds")
  /\ (forall releases selectedPlatform,
         releases <> [] ->
         Releases.processedReleases releases "" selectedPlatform = [] ->
         selectedPlatform <> ""
         /\ ReleasesView.emptyHint ""
            = "Check back later for new releases").
Proof.
  split; [|split].
  - intros builds sv sp Hbuilds Hnil.
    unfold DevBuildsView.emptyHint.
    destruct (JsString.truthy sv) eqn:Hsv; [reflexivity|].
    destruct (JsString.truthy sp) eqn:Hsp; [reflexivity|].
    apply truthy_false in Hsv, Hsp. subst.
    now apply processed_unfiltered_nil in Hnil.
  - intros builds Hnil. split; [|reflexivity].
    now apply processed_unfiltered_nil in Hnil.
  - intros releases sp Hreleases Hnil. split; [|reflexivity].
    intros ->. now apply processed_unfiltered_nil in Hnil.
Qed.

(** One Paper build, the Fabric filter set. *)
Lemma empty_state_hint_for_fabric_filter :
  DevBuildsView.emptyHint "" "fabric"
  = "Try adjusting your version or platform filters".
Proof.
  apply (proj1 empty_state_hint_follows_filters
               [ {| DevBuilds.version := "1.20"; DevBuilds.build_id := 3;
                    DevBuilds.commit_hash := "0123456789abcdef";
                    DevBuilds.author := ""; DevBuilds.commit_message := "";
                    DevBuilds.platform := "paper";
                    DevBuilds.upload_timestamp := "" |} ]);
    [discriminate | reflexivity].
Defined.

(** ** The wizard: closing, downloading, resolving *)

(** X9.  Closing the wizard when no download runs closes it at once and
    keeps the selection; the timer that fires later puts the wizard back
    to step 1 with no version and no platform and keeps the catalog; a
    wizard that is opened again before the timer fires starts a new
    fetch with the step and the selection it was closed with. *)
Theorem wizard_close_then_reset_or_reopen
        (today : string) (w : State ApiRelease) :
  isOpen w = true ->
  isDownloading w = false ->
  let closed := dispatch today ClickClose w in
  let reset := dispatch today TimerFired closed in
  let reopened := dispatch today Open closed in
  (isOpen closed = false /\ step closed = step w
   /\ selectedVersion closed = selectedVersion w
   /\ selectedPlatform closed = selectedPlatform w)
  /\ (step reset = Step1 /\ selectedVersion reset = ""
      /\ selectedPlatform reset = "" /\ isDownloading reset = false
      /\ releases reset = releases w)
  /\ (isOpen reopened = true /\ isLoading reopened = true
      /\ error reopened = false
      /\ step reopened = step w
      /\ selectedVersion reopened = selectedVersion w
      /\ selectedPlatform reopened = selectedPlatform w)
  /\ dispatch today TimerFired reopened = reopened.
Proof.
  intros Hopen Hdownloading closed reset reopened.
  subst closed reset reopened. cbn [dispatch]. unfold handleClose.
  rewrite Hdownloading. cbn. repeat split.
Qed.

(** Closed at step 3 with Paper selected. *)
Lemma wizard_reopened_at_step_three :
  let w :=
    {| isOpen := true; step := Step3; selectedVersion := "1.20";
       selectedPlatform := "paper"; releases := @nil ApiRelease;
       isLoading := false; error := false; isDownloading := false |} in
  step (dispatch "2025-01-01" Open (dispatch "2025-01-01" ClickClose w))
  = Step3.
Proof.
  intros w.
  destruct (wizard_close_then_reset_or_reopen "2025-01-01" w
                                              eq_refl eq_refl)
    as (_ & _ & (_ & _ & _ & Hstep & _) & _).
  exact Hstep.
Defined.

Lemma dispatch_keeps_downloading today e w :
  e <> AnimationComplete ->
  isOpen w = true -> isDownloading w = true ->
  isOpen (dispatch today e w) = true
  /\ isDownloading (dispatch today e w) = true.
Proof.
  intros He Hopen Hdown.
  destruct e as [|data| | |index|index| | | | |]; cbn [dispatch].
  - rewrite Hopen. auto.
  - auto.
  - auto.
  - rewrite Hopen. auto.
  - destruct (stepsRendered w && stepEqb (step w) Step1); [|auto].
    destruct (nth_error _ index); auto.
  - destruct (stepsRendered w && stepEqb (step w) Step2); [|auto].
    destruct (nth_error PLATFORMS_META index) as [candidate|]; [|auto].
    unfold clickPlatform. destruct (isAvailable _ _ candidate); auto.
  - destruct (stepsRendered w && stepEqb (step w) Step2); auto.
  - destruct (stepsRendered w && stepEqb (step w) Step3); [|auto].
    destruct (getDownloadData today w); auto.
  - destruct (stepsRendered w && stepEqb (step w) Step3); [|auto].
    destruct (getDownloadData today w); auto.
  - unfold handleClose. rewrite Hdown. auto.
  - contradiction.
Qed.

(** X10.  Once the download was started in an open wizard, nothing but
    the end of the animation closes the wizard or ends the download: every
    other event leaves it open and downloading, and the end of the
    animation closes it. *)
Theorem wizard_stays_open_while_downloading
        (today : string) (events : list Event) (w : State ApiRelease) :
  isOpen w = true ->
  isDownloading w = true ->
  ~ In AnimationComplete events ->
  isOpen (run today events w) = true
  /\ isDownloading (run today events w) = true
  /\ isOpen (dispatch today AnimationComplete (run today events w)) = false.
Proof.
  revert w. induction events as [|e events IH]; intros w Hopen Hdown Hnot.
  - cbn. rewrite Hdown. auto.
  - cbn [run fold_left].
    destruct (dispatch_keeps_downloading today e w) as [Hopen' Hdown'];
      [intros -> | exact Hopen | exact Hdown |].
    + apply Hnot. now left.
    + apply IH; [exact Hopen' | exact Hdown' |].
      intros Hin. apply Hnot. now right.
Qed.

(** The download was clicked at step 3; the user clicks Close, a late
    response arrives, the user clicks on. *)
Lemma wizard_stays_open_after_download_click :
  let w :=
    {| isOpen := true; step := Step3; selectedVersion := "1.20";
       selectedPlatform := "paper"; releases := @nil ApiRelease;
       isLoading := false; error := false; isDownloading := true |} in
  let events := [ClickClose; FetchCatch; ClickBackToVersions; TimerFired] in
  isOpen (run "2025-01-01" events w) = true
  /\ isDownloading (run "2025-01-01" events w) = true
  /\ isOpen (dispatch "2025-01-01" AnimationComplete
                      (run "2025-01-01" events w)) = false.
Proof.
  intros w events.
  apply (wizard_stays_open_while_downloading "2025-01-01" events w);
    [reflexivity | reflexivity |].
  intros [H|[H|[H|[H|[]]]]]; discriminate H.
Defined.

Lemma existsb_find {A : Type} (f : A -> bool) l :
  existsb f l = true -> exists x, find f l = Some x.
Proof.
  induction l as [|y l IH]; cbn; [discriminate|].
  destruct (f y); [now exists y | exact IH].
Qed.

Lemma dispatch_keeps_resolved today e w :
  (forall data, e <> FetchThen data) ->
  (step w = Step3 -> exists r, matchedRelease w = Some r) ->
  step (dispatch today e w) = Step3 ->
  exists r, matchedRelease (dispatch today e w) = Some r.
Proof.
  intros He Hinv.
  destruct e as [|data| | |index|index| | | | |]; cbn [dispatch].
  - destruct (isOpen w); exact Hinv.
  - now destruct (He data).
  - exact Hinv.
  - destruct (isOpen w); [exact Hinv | discriminate].
  - destruct (stepsRendered w && stepEqb (step w) Step1); [|exact Hinv].
    destruct (nth_error _ index); [discriminate | exact Hinv].
  - destruct (stepsRendered w && stepEqb (step w) Step2); [|exact Hinv].
    destruct (nth_error PLATFORMS_META index) as [candidate|]; [|exact Hinv].
    unfold clickPlatform.
    destruct (isAvailable (releases w) (selectedVersion w) candidate)
      eqn:Hav; [|exact Hinv].
    intros _. apply existsb_find. exact Hav.
  - destruct (stepsRendered w && stepEqb (step w) Step2);
      [discriminate | exact Hinv].
  - destruct (stepsRendered w && stepEqb (step w) Step3); [|exact Hinv].
    destruct (getDownloadData today w); [discriminate | exact Hinv].
  - destruct (stepsRendered w && stepEqb (step w) Step3); [|exact Hinv].
    destruct (getDownloadData today w); exact Hinv.
  - unfold handleClose. destruct (isDownloading w); exact Hinv.
  - destruct (isDownloading w); exact Hinv.
Qed.

(** X11.  The guard of the platform buttons and the lookup of step 3
    agree: as long as no response replaces the catalog, step 3 always
    has an artifact to show. *)
Theorem wizard_step_three_resolves
        (today : string) (events : list Event) (w : State ApiRelease) :
  (forall data, ~ In (FetchThen data) events) ->
  (step w = Step3 -> exists r, matchedRelease w = Some r) ->
  step (run today events w) = Step3 ->
  exists d, getDownloadData today (run today events w) = Some d.
Proof.
  intros Hevents Hinv Hstep.
  assert (Hresolved : exists r, matchedRelease (run today events w) = Some r).
  { revert w Hinv Hstep.
    induction events as [|e events IH]; intros w Hinv Hstep.
    - now apply Hinv.
    - cbn [run fold_left] in Hstep |- *. apply IH.
      + intros data Hin. apply (Hevents data). now right.
      + apply dispatch_keeps_resolved; [|exact Hinv].
        intros data ->. apply (Hevents data). now left.
      + exact Hstep. }
  destruct Hresolved as [r Hr]. unfold getDownloadData. rewrite Hr.
  eexists. reflexivity.
Qed.

(** The catalog is loaded, then 1.20 and Paper are clicked. *)
Lemma wizard_step_three_resolves_paper :
  let paper_1_20 :=
    {| version := "1.20"; platform := "Paper"; build_id := "40";
       size := None; file_size := "1048576"; releaseDate := None;
       release_date := Some "2025-03-01" |} in
  let loaded := run "2025-01-01" [Open; FetchThen [paper_1_20]] initial in
  exists d,
    getDownloadData "2025-01-01"
      (run "2025-01-01" [ClickVersion 0; ClickPlatform 0] loaded) = Some d.
Proof.
  intros paper_1_20 loaded.
  apply (wizard_step_three_resolves
           "2025-01-01" [ClickVersion 0; ClickPlatform 0] loaded).
  - intros data [H|[H|[]]]; discriminate H.
  - discriminate.
  - reflexivity.
Defined.

(** A response that replaces the catalog while the wizard is at step 3
    (it was closed and opened again before the reset) can leave step 3
    with nothing to show. *)
Example wizard_step_three_blank_after_reload :
  let paper_1_20 :=
    {| version := "1.20"; platform := "Paper"; build_id := "40";
       size := None; file_size := "1048576"; releaseDate := None;
       release_date := None |} in
  let w :=
    run "2025-01-01"
        [Open; FetchThen [paper_1_20]; ClickVersion 0; ClickPlatform 0;
         ClickClose; Open; FetchThen []]
        initial in
  step w = Step3 /\ stepsRendered w = true
  /\ getDownloadData "2025-01-01" w = None.
Proof. repeat split. Qed.

Lemma append_inj_r prefix : forall a b,
  String.append prefix a = String.append prefix b -> a = b.
Proof.
  induction prefix as [|c prefix IH]; intros a b Heq; [exact Heq|].
  cbn in Heq. injection Heq as Heq. now apply IH.
Qed.

(** X12.  The descriptor of step 3.  Its link is the download address
    followed by the build id of the resolved artifact, it is never the
    ["404"] fallback, and it tells the build id; its date is the
    artifact's [releaseDate] when that is a non-empty string, else its
    [release_date] when that is non-empty, else the date of the day. *)
Theorem download_descriptor_link_and_date
        (today : string) (w : State ApiRelease) (d : DownloadData.t) :
  getDownloadData today w = Some d ->
  exists data,
    matchedRelease w = Some data
    /\ DownloadData.link d
       = String.append "https://api.pulsemc.dev/release/download/"
                       (build_id data)
    /\ DownloadData.link d <> "404"
    /\ (forall other d',
           getDownloadData today other = Some d' ->
           DownloadData.link d' = DownloadData.link d ->
           exists data', matchedRelease other = Some data'
                         /\ build_id data' = build_id data)
    /\ (forall s, releaseDate data = Some s -> s <> "" ->
                  DownloadData.date d = s)
    /\ (releaseDate data = None \/ releaseDate data = Some "" ->
        forall s, release_date data = Some s -> s <> "" ->
                  DownloadData.date d = s)
    /\ (releaseDate data = None \/ releaseDate data = Some "" ->
        release_date data = None \/ release_date data = Some "" ->
        DownloadData.date d = today).
Proof.
  unfold getDownloadData.
  destruct (matchedRelease w) as [data|]; [|discriminate].
  intros [= <-]. exists data. split; [reflexivity|].
  cbn [DownloadData.link DownloadData.date]. unfold orElse.
  split; [reflexivity|]. split; [discriminate|].
  split; [|split; [|split]].
  - intros other d'.
    destruct (matchedRelease other) as [data'|]; [|discriminate].
    intros [= <-]. cbn [DownloadData.link]. intros Hlink.
    exists data'. split; [reflexivity|].
    change (String.append "https://api.pulsemc.dev/release/download/"
                          (build_id data')
            = String.append "https://api.pulsemc.dev/release/download/"
                            (build_id data)) in Hlink.
    now apply append_inj_r in Hlink.
  - intros s -> Hs. destruct s; [congruence | reflexivity].
  - intros [-> | ->] s -> Hs; destruct s; cbn; congruence.
  - intros [-> | ->] [-> | ->]; reflexivity.
Qed.

(** An artifact with the older date field only. *)
Lemma download_descriptor_of_paper_build :
  let data :=
    {| version := "1.20"; platform := "Paper"; build_id := "40";
       size := None; file_size := "1048576"; releaseDate := None;
       release_date := Some "2025-03-01" |} in
  let w :=
    {| isOpen := true; step := Step3; selectedVersion := "1.20";
       selectedPlatform := "paper"; releases := [data];
       isLoading := false; error := false; isDownloading := false |} in
  exists d,
    getDownloadData "2025-06-01" w = Some d
    /\ DownloadData.link d = "https://api.pulsemc.dev/release/download/40"
    /\ DownloadData.date d = "2025-03-01".
Proof.
  intros data w.
  destruct (getDownloadData "2025-06-01" w) as [d|] eqn:Hd;
    [|discriminate Hd].
  exists d. split; [reflexivity|].
  destruct (download_descriptor_link_and_date "2025-06-01" w d Hd)
    as (data' & Hmatched & Hlink & _ & _ & _ & Hdate & _).
  injection Hmatched as <-.
  split; [exact Hlink|].
  apply (Hdate (or_introl eq_refl) "2025-03-01"); [reflexivity|discriminate].
Defined.

(** X13.  A version offered at step 1 never leads to a step 2 with every
    platform disabled, provided the platforms of the catalog are, up to
    letter case, among the three ids of the wizard. *)
Theorem wizard_version_has_a_platform
        (releases : list ApiRelease) (version : string) :
  In version (uniqueVersions releases) ->
  (forall r, In r releases ->
             In (toLowerCase (platform r)) (map id PLATFORMS_META)) ->
  exists candidate,
    In candidate PLATFORMS_META
    /\ isAvailable releases version candidate = true.
Proof.
  intros Hversion Hplatforms.
  unfold uniqueVersions in Hversion. cbv zeta in Hversion.
  rewrite sort_In, distinct_In, in_map_iff in Hversion.
  destruct Hversion as (r & Hr & Hin).
  destruct (proj1 (in_map_iff _ _ _) (Hplatforms r Hin))
    as (candidate & Hid & Hcandidate).
  exists candidate. split; [exact Hcandidate|].
  apply isAvailable_spec. exists r. split; [exact Hin|].
  split; [exact Hr|]. rewrite <- Hid.
  destruct Hcandidate as [<-|[<-|[<-|[]]]]; reflexivity.
Qed.

(** A catalog of Paper and Fabric artifacts. *)
Lemma wizard_version_has_a_platform_fabric :
  let release v p :=
    {| version := v; platform := p; build_id := "1"; size := None;
       file_size := "1"; releaseDate := None; release_date := None |} in
  exists candidate,
    In candidate PLATFORMS_META
    /\ isAvailable [release "1.20" "Paper"; release "1.21" "FABRIC"]
                   "1.21" candidate = true.
Proof.
  intros release.
  apply wizard_version_has_a_platform.
  - left. reflexivity.
  - intros r [<-|[<-|[]]]; cbn; auto.
Defined.

Example wizard_version_without_platform :
  let forge :=
    {| version := "1.20"; platform := "forge"; build_id := "1";
       size := None; file_size := "1"; releaseDate := None;
       release_date := None |} in
  uniqueVersions [forge] = ["1.20"]
  /\ map (isAvailable [forge] "1.20") PLATFORMS_META = [false; false; false].
Proof. split; reflexivity. Qed.

(** ** The download addresses of the cards *)

Example toString_values :
  JsNumber.toString 40 = "40" /\ JsNumber.toString 0 = "0"
  /\ JsNumber.toString (-3) = "-3".
Proof. repeat split. Qed.

Lemma to_uint_not_Nil p : Pos.to_uint p <> Decimal.Nil.
Proof.
  intros Hnil. pose proof (DecimalPos.Unsigned.of_to p) as Hof.
  rewrite Hnil in Hof. discriminate Hof.
Qed.

Lemma to_int_parses n :
  NilZero.int_of_string (NilZero.string_of_int (Z.to_int n))
  = Some (Z.to_int n).
Proof.
  destruct n as [|p|p]; [reflexivity| |]; apply NilZero.isi; cbn;
    try discriminate; intros [= Hnil]; now apply to_uint_not_Nil in Hnil.
Qed.

Lemma toString_inj a b : JsNumber.toString a = JsNumber.toString b -> a = b.
Proof.
  unfold JsNumber.toString. intros Heq.
  apply DecimalZ.to_int_inj.
  pose proof (to_int_parses a) as Ha. rewrite Heq, to_int_parses in Ha.
  now injection Ha.
Qed.

(** X14.  The Download button of a card opens an address that tells the
    build id: two cards of the releases page, or two of the dev-builds
    page, open the same address exactly when their build ids are equal,
    and a release never shares its address with a dev build. *)
Theorem download_address_tells_build
        (BASE_URL : string) :
  (forall a b : Releases.Release,
      ReleasesView.downloadUrl BASE_URL a = ReleasesView.downloadUrl BASE_URL b
      <-> Releases.build_id a = Releases.build_id b)
  /\ (forall a b : DevBuilds.DevBuild,
         DevBuildsView.downloadUrl BASE_URL a
         = DevBuildsView.downloadUrl BASE_URL b
         <-> DevBuilds.build_id a = DevBuilds.build_id b)
  /\ (forall (a : Releases.Release) (b : DevBuilds.DevBuild),
         ReleasesView.downloadUrl BASE_URL a
         <> DevBuildsView.downloadUrl BASE_URL b).
Proof.
  unfold ReleasesView.downloadUrl, DevBuildsView.downloadUrl.
  split; [|split].
  - intros a b. split; [|now intros ->].
    intros Heq. do 2 apply append_inj_r in Heq. now apply toString_inj.
  - intros a b. split; [|now intros ->].
    intros Heq. do 2 apply append_inj_r in Heq. now apply toString_inj.
  - intros a b Heq. apply append_inj_r in Heq. discriminate Heq.
Qed.

(** ** The hero of the landing page *)

(** X15.  The effects switch survives a reload: after a click on the
    switch the stored text restores, at the next mount, exactly the value
    the click set, whatever the width of the window; with nothing stored
    the effects are on at a width of 768 and above and off below; and
    two clicks restore the value and the stored text of the first. *)
Theorem effects_preference_round_trip
        (st fresh : Hero.State) (innerWidth : Z) :
  let (clicked, stored) := Hero.toggleEffects st in
  Hero.showEffects clicked = negb (Hero.showEffects st)
  /\ option_map Hero.showEffects
                (Hero.restoreEffects (Some stored) innerWidth fresh)
     = Some (Hero.showEffects clicked)
  /\ option_map Hero.showEffects (Hero.restoreEffects None innerWidth fresh)
     = Some (768 <=? innerWidth)
  /\ Hero.showEffects (fst (Hero.toggleEffects clicked))
     = Hero.showEffects st
  /\ option_map Hero.showEffects
                (Hero.restoreEffects
                   (Some (snd (Hero.toggleEffects clicked))) innerWidth fresh)
     = Some (Hero.showEffects st).
Proof.
  unfold Hero.toggleEffects, Hero.restoreEffects. cbn.
  destruct (Hero.showEffects st); cbn; repeat split;
    now rewrite Z.leb_antisym.
Qed.

Lemma readCount_last_pair statusText points time count :
  Hero.readCount
    (Responded true statusText
               (inr (JArray (points ++ [JArray [time; count]]))))
  = inr (Some count).
Proof.
  unfold Hero.readCount, andThen. cbn [negb].
  destruct (points ++ [JArray [time; count]])%list as [|first others]
    eqn:Hpoints; [now destruct points|].
  rewrite <- Hpoints, last_last. reflexivity.
Qed.

Lemma readCount_no_points statusText data :
  (forall items, data <> JArray items) \/ data = JArray [] ->
  Hero.readCount (Responded true statusText (inr data))
  = inl (ErrorObject "Invalid data format").
Proof.
  intros [Hother | ->]; [|reflexivity].
  destruct data as [| | | |[|first others]|]; try reflexivity.
  now destruct (Hother (first :: others)).
Qed.

(** X16.  The server counter.  Whatever the request gives, once it has
    ended the loading flag is down, the opacity is 1 and the statistics
    are set, so that the counter shows a count and never "N/A"; every
    failure (a rejected request, a status that is not 2xx, a body that
    does not parse, a body that is no array or an empty one, a last
    point that is [null]) sets the count to 42; and a last point that is
    a pair sets the count to its second component. *)
Theorem server_counter_always_counts
        (outcome : fetchOutcome) (st : Hero.State) :
  let after := Hero.fetchServerStats outcome st in
  Hero.counter Hero.initial = Hero.Calculating
  /\ Hero.isLoading after = false
  /\ Hero.opacity after = 1
  /\ (exists count, Hero.counter after = Hero.CountUp count)
  /\ (forall reason,
         Hero.readCount outcome = inl reason ->
         Hero.counter after = Hero.CountUp (Some (JNumber 42)))
  /\ (forall statusText points time count,
         outcome = Responded true statusText
                             (inr (JArray (points
                                           ++ [JArray [time; count]]))) ->
         Hero.counter after = Hero.CountUp (Some count))
  /\ (forall statusText data,
         outcome = Responded true statusText (inr data) ->
         (forall items, data <> JArray items) \/ data = JArray [] ->
         Hero.counter after = Hero.CountUp (Some (JNumber 42))).
Proof.
  intros after. subst after.
  unfold Hero.fetchServerStats, Hero.counter.
  split; [reflexivity|].
  split; [destruct (Hero.readCount outcome); reflexivity|].
  split; [destruct (Hero.readCount outcome); reflexivity|].
  split; [destruct (Hero.readCount outcome); eexists; reflexivity|].
  split; [|split].
  - intros reason ->. reflexivity.
  - intros statusText points time count ->.
    now rewrite readCount_last_pair.
  - intros statusText data -> Hdata.
    now rewrite readCount_no_points.
Qed.

(** The answer of the statistics service with one point. *)
Lemma server_counter_reads_last_point :
  Hero.counter
    (Hero.fetchServerStats
       (Responded true "OK"
                  (inr (JArray [JArray [JNumber 1700000000; JNumber 128]])))
       Hero.initial)
  = Hero.CountUp (Some (JNumber 128)).
Proof.
  apply (proj1 (proj2 (proj2 (proj2 (proj2 (proj2
           (server_counter_always_counts
              (Responded true "OK"
                 (inr (JArray [JArray [JNumber 1700000000; JNumber 128]])))
              Hero.initial))))))
           "OK" [] (JNumber 1700000000) (JNumber 128)).
  reflexivity.
Defined.

(** ** The query of a request *)

Import UrlSearchParams.

Example encode_reserved : encode "1.20 & more=#1" = "1.20+%26+more%3D%231".
Proof. reflexivity. Qed.

Example parse_query :
  parse "version=1.20&build_id=7" = [("version", "1.20"); ("build_id", "7")].
Proof. reflexivity. Qed.

Ltac each_character c :=
  destruct c as [[] [] [] [] [] [] [] []]; reflexivity.

Lemma decode_encodeChar c t :
  decode (String.append (encodeChar c) t) = String c (decode t).
Proof. each_character c. Qed.

Lemma decode_encode s : decode (encode s) = s.
Proof.
  induction s as [|c s IH]; [reflexivity|].
  cbn [encode]. now rewrite decode_encodeChar, IH.
Qed.

Lemma occurs_append c a : forall b,
  occurs c (String.append a b) = occurs c a || occurs c b.
Proof.
  induction a as [|x a IH]; intros b; cbn; [reflexivity|].
  now rewrite IH, orb_assoc.
Qed.

Lemma encodeChar_reserved c :
  occurs "&" (encodeChar c) = false /\ occurs "=" (encodeChar c) = false
  /\ occurs "?" (encodeChar c) = false /\ occurs "#" (encodeChar c) = false.
Proof. repeat split; each_character c. Qed.

Lemma encode_reserved_free s :
  occurs "&" (encode s) = false /\ occurs "=" (encode s) = false
  /\ occurs "?" (encode s) = false /\ occurs "#" (encode s) = false.
Proof.
  induction s as [|c s (IH1 & IH2 & IH3 & IH4)]; cbn [encode];
    [repeat split|].
  destruct (encodeChar_reserved c) as (H1 & H2 & H3 & H4).
  rewrite !occurs_append, H1, H2, H3, H4, IH1, IH2, IH3, IH4.
  repeat split.
Qed.

Lemma split_before_separator sep a : forall b,
  occurs sep a = false ->
  split sep (String.append a (String sep b)) = a :: split sep b.
Proof.
  induction a as [|x a IH]; intros b Hfree; cbn.
  - now rewrite Ascii.eqb_refl.
  - cbn in Hfree. apply orb_false_iff in Hfree. destruct Hfree as [Hx Ha].
    rewrite Hx, IH by exact Ha. reflexivity.
Qed.

Lemma split_without_separator sep a :
  occurs sep a = false -> split sep a = [a].
Proof.
  induction a as [|x a IH]; intros Hfree; cbn; [reflexivity|].
  cbn in Hfree. apply orb_false_iff in Hfree. destruct Hfree as [Hx Ha].
  now rewrite Hx, IH.
Qed.

Lemma cutAt_first sep a : forall b,
  occurs sep a = false ->
  cutAt sep (String.append a (String sep b)) = (a, b).
Proof.
  induction a as [|x a IH]; intros b Hfree; cbn.
  - now rewrite Ascii.eqb_refl.
  - cbn in Hfree. apply orb_false_iff in Hfree. destruct Hfree as [Hx Ha].
    now rewrite Hx, IH.
Qed.

Lemma truthy_append_r a b :
  JsString.truthy b = true -> JsString.truthy (String.append a b) = true.
Proof. destruct a; [trivial | reflexivity]. Qed.

(** One [name=value] piece of a query. *)
Lemma piece_facts name value :
  let piece :=
    String.append (encode name) (String.append "=" (encode value)) in
  occurs "&" piece = false
  /\ JsString.truthy piece = true
  /\ cutAt "=" piece = (encode name, encode value).
Proof.
  intros piece. subst piece.
  destruct (encode_reserved_free name) as (Hn1 & Hn2 & _).
  destruct (encode_reserved_free value) as (Hv1 & _).
  split; [|split].
  - rewrite occurs_append, Hn1. cbn. exact Hv1.
  - now apply truthy_append_r.
  - now apply cutAt_first.
Qed.

Lemma concat_cons sep x y ys :
  String.concat sep (x :: y :: ys)
  = String.append x (String.append sep (String.concat sep (y :: ys))).
Proof. reflexivity. Qed.

Lemma parse_serialize params : parse (serialize params) = params.
Proof.
  unfold parse, serialize.
  induction params as [|[name value] params IH]; [reflexivity|].
  destruct (piece_facts name value) as (Hfree & Htruthy & Hcut).
  destruct params as [|next params].
  - cbn [map fst snd String.concat].
    rewrite split_without_separator by exact Hfree.
    cbn [filter]. rewrite Htruthy. cbn [map]. rewrite Hcut.
    now rewrite !decode_encode.
  - cbn [map] in IH |- *. rewrite concat_cons. cbn [fst snd] in IH |- *.
    change (String.append "&" ?t) with (String "&"%char t).
    rewrite split_before_separator by exact Hfree.
    cbn [filter]. rewrite Htruthy. cbn [map]. rewrite Hcut, IH.
    now rewrite !decode_encode.
Qed.

Lemma truthy_append_l a b :
  JsString.truthy a = true -> JsString.truthy (String.append a b) = true.
Proof. destruct a; [discriminate | reflexivity]. Qed.

Lemma serialize_truthy params :
  params <> [] -> JsString.truthy (serialize params) = true.
Proof.
  destruct params as [|[name value] params]; [congruence|]. intros _.
  destruct (piece_facts name value) as (_ & Htruthy & _).
  unfold serialize. cbn [map fst snd].
  destruct (map _ params) as [|next pieces]; [exact Htruthy|].
  rewrite concat_cons. now apply truthy_append_l.
Qed.

Lemma occurs_concat c sep pieces :
  occurs c sep = false ->
  Forall (fun piece => occurs c piece = false) pieces ->
  occurs c (String.concat sep pieces) = false.
Proof.
  intros Hsep. induction 1 as [|piece pieces Hpiece Hpieces IH];
    [reflexivity|].
  destruct pieces as [|next pieces]; [exact Hpiece|].
  now rewrite concat_cons, !occurs_append, Hpiece, Hsep, IH.
Qed.

Lemma serialize_reserved_free params :
  occurs "?" (serialize params) = false
  /\ occurs "#" (serialize params) = false.
Proof.
  unfold serialize.
  split; apply occurs_concat; try reflexivity;
    apply Forall_forall; intros piece Hpiece;
    apply in_map_iff in Hpiece; destruct Hpiece as ([name value] & <- & _);
    cbn [fst snd];
    destruct (encode_reserved_free name) as (_ & _ & Hn3 & Hn4);
    destruct (encode_reserved_free value) as (_ & _ & Hv3 & Hv4);
    rewrite !occurs_append; cbn [occurs].
  - now rewrite Hn3, Hv3.
  - now rewrite Hn4, Hv4.
Qed.

(** X1.  The address a catalog browser requests is the endpoint alone
    when the route gives no version and no build number (an empty one
    counts as none), and the endpoint, a question mark and a query
    otherwise.  The query reads back as exactly the filters of the route,
    [version] before [build_id], whatever characters they hold: a value
    cannot add a parameter, end the query or start a fragment. *)
Theorem request_query_round_trip
        (BASE_URL endpoint : string) (version build_number : option string) :
  let params := Request.routeParams version build_number in
  let query := serialize params in
  let given value :=
    match value with
    | Some v => if JsString.truthy v then [v] else []
    | None => []
    end in
  params
  = (map (pair "version") (given version)
     ++ map (pair "build_id") (given build_number))%list
  /\ parse query = params
  /\ occurs "?" query = false
  /\ occurs "#" query = false
  /\ (params = [] ->
      Request.requestUrl BASE_URL endpoint version build_number
      = String.append BASE_URL endpoint)
  /\ (params <> [] ->
      Request.requestUrl BASE_URL endpoint version build_number
      = String.append (String.append BASE_URL endpoint)
                      (String.append "?" query)).
Proof.
  intros params query given. subst params query given.
  split; [|split; [apply parse_serialize|]].
  - unfold Request.routeParams, Request.appendIfSet.
    destruct version as [v|], build_number as [b|];
      try destruct (JsString.truthy v); try destruct (JsString.truthy b);
      reflexivity.
  - destruct (serialize_reserved_free
                (Request.routeParams version build_number)) as [H1 H2].
    split; [exact H1|]. split; [exact H2|].
    unfold Request.requestUrl. cbv zeta. split.
    + intros ->. reflexivity.
    + intros Hparams. now rewrite serialize_truthy.
Qed.

(** A version with an ampersand in it, and build 7. *)
Lemma request_query_with_ampersand :
  Request.requestUrl "https://api.example" "/releases"
                     (Some "1.20&x=y") (Some "7")
  = "https://api.example/releases?version=1.20%26x%3Dy&build_id=7"
  /\ parse "version=1.20%26x%3Dy&build_id=7"
     = [("version", "1.20&x=y"); ("build_id", "7")].
Proof.
  destruct (request_query_round_trip "https://api.example" "/releases"
                                     (Some "1.20&x=y") (Some "7"))
    as (_ & Hparse & _ & _ & _ & Hurl).
  split; [apply Hurl; discriminate | exact Hparse].
Defined.

Lemma truthy_nonempty s : JsString.truthy s = true -> s <> "".
Proof. destruct s; [discriminate | discriminate]. Qed.

(** X17.  The version of the route is sent to the server and is also the
    version filter of the page.  The two are the same text, so on a
    response that holds artifacts of that version only the version filter
    of the page removes nothing. *)
Theorem route_version_filters_twice
        (Artifact : Type) (itemVersion platform : Artifact -> string)
        (build_id : Artifact -> Z) (items : list Artifact)
        (version build_number : option string) (selectedPlatform : string) :
  let selectedVersion := Request.selectedVersionOfRoute version in
  let visible :=
    FilterEngine.processed Artifact itemVersion platform build_id in
  (forall v, In ("version", v) (Request.routeParams version build_number)
             <-> v = selectedVersion /\ v <> "")
  /\ ((forall r, In r items -> itemVersion r = selectedVersion) ->
      visible items selectedVersion selectedPlatform
      = visible items "" selectedPlatform).
Proof.
  intros selectedVersion visible. subst selectedVersion visible. split.
  - intros v. unfold Request.routeParams, Request.appendIfSet,
      Request.selectedVersionOfRoute.
    destruct version as [given|];
      [destruct (JsString.truthy given) eqn:Hgiven;
       [apply truthy_nonempty in Hgiven|]|];
      (destruct build_number as [b|]; [destruct (JsString.truthy b)|]);
      cbn; intuition (subst; congruence).
  - intros Hitems. rewrite !processed_as_filter. f_equal.
    apply filter_ext_in. intros r Hr.
    unfold FilterEngine.passes. rewrite (Hitems r Hr), String.eqb_refl.
    now rewrite orb_true_r.
Qed.

(** The route [/releases/1.20] and a response with two builds of 1.20. *)
Lemma route_version_filters_twice_1_20 :
  let release b :=
    {| Releases.version := "1.20"; Releases.platform := "paper";
       Releases.build_id := b; Releases.changelog := "";
       Releases.filename := ""; Releases.file_size := 0;
       Releases.upload_timestamp := "" |} in
  Releases.processedReleases [release 3; release 8] "1.20" ""
  = Releases.processedReleases [release 3; release 8] "" "".
Proof.
  intros release.
  apply (proj2 (route_version_filters_twice
                  Releases.Release Releases.version Releases.platform
                  Releases.build_id [release 3; release 8]
                  (Some "1.20") None "")).
  intros r [<-|[<-|[]]]; reflexivity.
Defined.
